(** * CppFortranInterop: the eigen-decomposition comparison harness

    A shallow embedding of [src/main.cpp] and [src/eigen_interface.cpp].

    - [double] is IEEE binary64, modelled by Rocq's primitive floats; the
      operators the program applies to doubles itself ([/], [-], [<], [<=],
      [>], [std::abs]) are the primitive ones.
    - An [Eigen::MatrixXd] is its dimensions and its column-major coefficient
      array; an [Eigen::VectorXd] is its coefficient array.
    - Library code the program calls but does not contain (the numerical
      kernels of Eigen, the Fortran subroutine, [std::rand], the clock) is
      collected in the class [External]; every general theorem holds for all
      of its instances.  Coefficient-wise Eigen operations, whose result is
      fixed by IEEE arithmetic, are written out.
    - [main] runs in a state monad over [world] (streams, the random and clock
      cursors, the Eigen objects passed by reference) whose outcomes also
      record a C++ exception in flight, an executed [return], a violated
      library precondition and exhausted fuel for the one unbounded loop. *)

From Stdlib Require Import ZArith String Ascii Floats Lia Bool DecimalString DecimalZ Sorted List.
Import ListNotations.

Local Open Scope Z_scope.

(** ** Doubles *)

Definition double := float.

(** ** Eigen dense objects *)

Definition Vector := list double.

Record Matrix := mkMatrix {
  rows : nat;
  cols : nat;
  coeffs : list double   (* column-major: (i,j) is at index [j * rows + i] *)
}.

Definition coeff (A : Matrix) (i j : nat) : double :=
  nth (j * rows A + i) (coeffs A) 0%float.

Definition same_shape (A B : Matrix) : bool :=
  Nat.eqb (rows A) (rows B) && Nat.eqb (cols A) (cols B).

Definition wf_matrix (A : Matrix) : Prop :=
  length (coeffs A) = (rows A * cols A)%nat.

Definition complex := (double * double)%type.

Definition real (z : complex) : double := fst z.

(** ** C++ exceptions; all of them derive from [std::exception] *)

Inductive exn :=
| runtime_error (msg : string)
| invalid_argument (msg : string)
| out_of_range (msg : string)
| std_exception (msg : string).

Definition what (e : exn) : string :=
  match e with
  | runtime_error m | invalid_argument m | out_of_range m | std_exception m => m
  end.

(** ** Code outside the repository's C++ sources *)

Class External := {
  (** the k-th coefficient produced by the generator behind
      [Eigen::MatrixXd::Random] since program start *)
  random_coeff : nat -> double;
  (** contents of storage that has been allocated but not written *)
  indeterminate : nat -> double;
  (** [Eigen::JacobiSVD<MatrixXd>(A).singularValues()] *)
  singularValues : Matrix -> Vector;
  (** coefficients of the dense product [A * B] *)
  product_coeffs : Matrix -> Matrix -> list double;
  (** coefficients of [V.inverse()] *)
  inverse_coeffs : Matrix -> list double;
  (** [A.norm()], the Frobenius norm as Eigen evaluates it *)
  norm : Matrix -> double;
  (** [Eigen::EigenSolver<MatrixXd> solver(A)]: the coefficients of
      [solver.eigenvalues()] and [solver.eigenvectors()], or the exception the
      constructor throws *)
  EigenSolver : Matrix -> exn + (list complex * list complex);
  (** the Fortran subroutine [eigen_decomposition(n, A, W, V, info)]: from [n]
      and the contents of the three buffers to their new contents and [info] *)
  fortran_eigen_decomposition :
    Z -> list double -> list double -> list double ->
    list double * list double * list double * Z;
  (** ticks of the k-th reading of [high_resolution_clock] *)
  clock_ticks : nat -> Z;
  (** [std::chrono::duration<double>(ticks).count()] *)
  seconds : Z -> double
}.

(** ** Streams and the program state *)

Inductive item :=
| Str (s : string)     (* [<< "text"] or [<< std::string] *)
| Dbl (d : double)     (* [<< double] *)
| Int (z : Z)          (* [<< int] *)
| Endl.                (* [<< std::endl] *)

Definition ostream := list item.

Record world := mkWorld {
  cin : string;                 (* characters not yet extracted *)
  cin_fail : bool;              (* failbit of [std::cin] *)
  cout : ostream;
  cerr : ostream;
  outfile : ostream;            (* contents of results.txt *)
  rand_count : nat;             (* coefficients drawn so far *)
  clock_count : nat;            (* clock readings so far *)
  mats : positive -> Matrix;    (* the [MatrixXd] objects, by identity *)
  vecs : positive -> Vector     (* the [VectorXd] objects, by identity *)
}.

Inductive outcome (T : Type) : Type :=
| Val (v : T)                   (* normal completion *)
| Throw (e : exn)               (* an exception propagates *)
| Return (code : Z)             (* [return code;] in [main] *)
| Undef                         (* failed Eigen assertion, indeterminate read *)
| OutOfFuel.                    (* the loop did not finish within the fuel *)

Arguments Val {T} v.
Arguments Throw {T} e.
Arguments Return {T} code.
Arguments Undef {T}.
Arguments OutOfFuel {T}.

Definition M (T : Type) : Type := world -> outcome T * world.

Definition ret {T} (v : T) : M T := fun w => (Val v, w).

Definition bind {T U} (m : M T) (k : T -> M U) : M U :=
  fun w =>
    match m w with
    | (Val v, w') => k v w'
    | (Throw e, w') => (Throw e, w')
    | (Return c, w') => (Return c, w')
    | (Undef, w') => (Undef, w')
    | (OutOfFuel, w') => (OutOfFuel, w')
    end.

Declare Scope cpp_scope.
Delimit Scope cpp_scope with cpp.
Notation "x <- m ;; k" := (bind m (fun x => k))
  (at level 61, m at next level, right associativity) : cpp_scope.
Notation "m ;; k" := (bind m (fun _ => k))
  (at level 61, right associativity) : cpp_scope.
Local Open Scope cpp_scope.

Definition throw {T} (e : exn) : M T := fun w => (Throw e, w).
Definition return_ {T} (code : Z) : M T := fun w => (Return code, w).
Definition undef {T} : M T := fun w => (Undef, w).
Definition out_of_fuel {T} : M T := fun w => (OutOfFuel, w).

(** [try { body } catch (const std::exception &e) { handler }] *)
Definition try_catch {T} (body : M T) (handler : exn -> M T) : M T :=
  fun w =>
    match body w with
    | (Throw e, w') => handler e w'
    | r => r
    end.

(** an Eigen call whose precondition may fail *)
Definition eigen_assert {T} (o : option T) : M T :=
  match o with
  | Some v => ret v
  | None => undef
  end.

Definition cout_put (l : ostream) : M unit := fun w =>
  (Val tt, mkWorld (cin w) (cin_fail w) (cout w ++ l) (cerr w) (outfile w)
                   (rand_count w) (clock_count w) (mats w) (vecs w)).

Definition cerr_put (l : ostream) : M unit := fun w =>
  (Val tt, mkWorld (cin w) (cin_fail w) (cout w) (cerr w ++ l) (outfile w)
                   (rand_count w) (clock_count w) (mats w) (vecs w)).

Definition outfile_put (l : ostream) : M unit := fun w =>
  (Val tt, mkWorld (cin w) (cin_fail w) (cout w) (cerr w) (outfile w ++ l)
                   (rand_count w) (clock_count w) (mats w) (vecs w)).

(** [std::ofstream outfile("results.txt")] truncates the file *)
Definition outfile_open : M unit := fun w =>
  (Val tt, mkWorld (cin w) (cin_fail w) (cout w) (cerr w) []
                   (rand_count w) (clock_count w) (mats w) (vecs w)).

Definition set_cin (s : string) (f : bool) (w : world) : world :=
  mkWorld s f (cout w) (cerr w) (outfile w)
          (rand_count w) (clock_count w) (mats w) (vecs w).

Definition get_mat (l : positive) : M Matrix := fun w => (Val (mats w l), w).
Definition get_vec (l : positive) : M Vector := fun w => (Val (vecs w l), w).

Definition upd {T} (f : positive -> T) (l : positive) (v : T) : positive -> T :=
  fun l' => if Pos.eqb l' l then v else f l'.

Definition store_mat (l : positive) (A : Matrix) (w : world) : world :=
  mkWorld (cin w) (cin_fail w) (cout w) (cerr w) (outfile w)
          (rand_count w) (clock_count w) (upd (mats w) l A) (vecs w).

Definition store_vec (l : positive) (v : Vector) (w : world) : world :=
  mkWorld (cin w) (cin_fail w) (cout w) (cerr w) (outfile w)
          (rand_count w) (clock_count w) (mats w) (upd (vecs w) l v).

Definition set_mat (l : positive) (A : Matrix) : M unit :=
  fun w => (Val tt, store_mat l A w).
Definition set_vec (l : positive) (v : Vector) : M unit :=
  fun w => (Val tt, store_vec l v w).

(** ** Text to numbers and back *)

Definition isspace (c : ascii) : bool :=
  let n := nat_of_ascii c in
  Nat.eqb n 32 || (Nat.leb 9 n && Nat.leb n 13).

Fixpoint skipws (s : string) : string :=
  match s with
  | String c s' => if isspace c then skipws s' else s
  | EmptyString => s
  end.

Definition digit_of (c : ascii) : option Z :=
  let n := nat_of_ascii c in
  if Nat.leb 48 n && Nat.leb n 57 then Some (Z.of_nat (n - 48)) else None.

(** the longest prefix of decimal digits, accumulated into [acc] *)
Fixpoint digits (acc : Z) (any : bool) (s : string) : Z * bool * string :=
  match s with
  | String c s' =>
      match digit_of c with
      | Some d => digits (10 * acc + d) true s'
      | None => (acc, any, s)
      end
  | EmptyString => (acc, any, s)
  end.

(** optional white space, optional sign, decimal digits: the subject sequence
    of [strtol] in base 10.  [None] when there is no digit. *)
Definition parse_integer (s : string) : option (Z * string) :=
  let s1 := skipws s in
  let '(neg, s2) :=
    match s1 with
    | String "-" t => (true, t)
    | String "+" t => (false, t)
    | _ => (false, s1)
    end in
  let '(v, any, rest) := digits 0 false s2 in
  if any then Some (if neg then - v else v, rest) else None.

Definition INT_MAX : Z := 2147483647.
Definition INT_MIN : Z := -2147483648.

(** [std::stoi(str)] *)
Definition stoi (str : string) : M Z :=
  match parse_integer str with
  | None => throw (invalid_argument "stoi")
  | Some (v, _) =>
      if (v <? INT_MIN) || (INT_MAX <? v) then throw (out_of_range "stoi")
      else ret v
  end.

(** [std::to_string(int)] *)
Definition to_string (i : Z) : string := NilZero.string_of_int (Z.to_int i).

(** conversion of an [Eigen::Index] to [int] *)
Definition int_of_Index (i : Z) : Z := (i + 2 ^ 31) mod 2 ^ 32 - 2 ^ 31.

(** [std::cin >> size] for [int size]: the value stored.  With the stream
    failed or exhausted nothing is stored and [size] stays indeterminate; a
    field that is no integer stores 0, one out of range the nearest bound. *)
Definition cin_int : M Z := fun w =>
  if cin_fail w then (Undef, w)
  else
    match skipws (cin w) with
    | EmptyString => (Undef, set_cin EmptyString true w)
    | s =>
        match parse_integer s with
        | None => (Val 0, set_cin s true w)
        | Some (v, rest) =>
            if v <? INT_MIN then (Val INT_MIN, set_cin rest true w)
            else if INT_MAX <? v then (Val INT_MAX, set_cin rest true w)
            else (Val v, set_cin rest false w)
        end
    end.

(** [std::cin >> c] for [char c]: [Some] of the character stored, [None]
    when the extraction fails and [c] keeps what it held *)
Definition cin_char : M (option ascii) := fun w =>
  if cin_fail w then (Val None, w)
  else
    match skipws (cin w) with
    | EmptyString => (Val None, set_cin EmptyString true w)
    | String c rest => (Val (Some c), set_cin rest false w)
    end.

(** ** Coefficient-wise Eigen operations *)

Fixpoint zip_with {T U R} (f : T -> U -> R) (a : list T) (b : list U) : list R :=
  match a, b with
  | x :: a', y :: b' => f x y :: zip_with f a' b'
  | _, _ => []
  end.

(** [a - b] for two vectors; Eigen asserts equal sizes *)
Definition vector_sub (a b : Vector) : option Vector :=
  if Nat.eqb (length a) (length b) then Some (zip_with PrimFloat.sub a b)
  else None.

(** the coefficients of [A - B] *)
Definition difference (A B : Matrix) : Matrix :=
  mkMatrix (rows A) (cols A) (zip_with PrimFloat.sub (coeffs A) (coeffs B)).

(** [A - B] for two matrices; Eigen asserts equal shapes *)
Definition matrix_sub (A B : Matrix) : option Matrix :=
  if same_shape A B then Some (difference A B) else None.

(** [.cwiseAbs()] *)
Definition cwiseAbs (v : list double) : list double := map PrimFloat.abs v.

(** [.maxCoeff()]: a running maximum that is replaced when a coefficient
    compares greater; Eigen asserts a nonempty object *)
Definition maxCoeff (v : list double) : option double :=
  match v with
  | [] => None
  | x :: xs => Some (fold_left (fun m y => if (m <? y)%float then y else m) xs x)
  end.

(** column [j] of [V] scaled by [W(j)] *)
Definition scaled_columns (V : Matrix) (W : Vector) : Matrix :=
  mkMatrix (rows V) (cols V)
    (map (fun k => (nth k (coeffs V) 0 * nth (Nat.div k (rows V)) W 0)%float)
         (seq 0 (rows V * cols V))).

(** [V * W.asDiagonal()]; Eigen asserts [V.cols() == W.size()] *)
Definition times_diagonal (V : Matrix) (W : Vector) : option Matrix :=
  if Nat.eqb (cols V) (length W) then Some (scaled_columns V W) else None.

(** storage of [n] coefficients that has not been written *)
Definition unwritten `{External} (n : nat) : list double :=
  map indeterminate (seq 0 n).

(** a callee writing through a raw pointer changes the cells of the buffer,
    not their number *)
Definition overwrite (old new : list double) : list double :=
  firstn (length old) (new ++ skipn (length new) old).

Section Program.

Context `{ext : External}.

(** [A * B] for two matrices; Eigen asserts [A.cols() == B.rows()] *)
Definition product (A B : Matrix) : option Matrix :=
  if Nat.eqb (cols A) (rows B)
  then Some (mkMatrix (rows A) (cols B) (product_coeffs A B))
  else None.

(** [V.inverse()]; Eigen asserts a square matrix and does not test for
    singularity *)
Definition inverse (V : Matrix) : option Matrix :=
  if Nat.eqb (rows V) (cols V)
  then Some (mkMatrix (rows V) (cols V) (inverse_coeffs V))
  else None.

(** [Eigen::MatrixXd::Random(r, c)] *)
Definition Random (r c : Z) : M Matrix := fun w =>
  if (r <? 0) || (c <? 0) then (Undef, w)
  else
    let n := (Z.to_nat r * Z.to_nat c)%nat in
    (Val (mkMatrix (Z.to_nat r) (Z.to_nat c)
            (map random_coeff (seq (rand_count w) n))),
     mkWorld (cin w) (cin_fail w) (cout w) (cerr w) (outfile w)
             (rand_count w + n)%nat (clock_count w) (mats w) (vecs w)).

(** [std::chrono::high_resolution_clock::now()] *)
Definition now : M Z := fun w =>
  (Val (clock_ticks (clock_count w)),
   mkWorld (cin w) (cin_fail w) (cout w) (cerr w) (outfile w)
           (rand_count w) (S (clock_count w)) (mats w) (vecs w)).

(** [W.resize(n)]: storage is kept when the size does not change *)
Definition vector_resize (W : Vector) (n : nat) : Vector :=
  if Nat.eqb (length W) n then W else unwritten n.

(** [V.resize(r, c)]: storage is kept when the number of coefficients does
    not change *)
Definition matrix_resize (V : Matrix) (r c : nat) : Matrix :=
  if Nat.eqb (rows V * cols V) (r * c) then mkMatrix r c (coeffs V)
  else mkMatrix r c (unwritten (r * c)).

(** ** src/eigen_interface.cpp *)

(** [void eigen_decomposition(const MatrixXd &A, VectorXd &W, MatrixXd &V)];
    the three arguments are the objects the references are bound to *)
Definition eigen_decomposition (A W V : positive) : M unit := fun w =>
  let n := int_of_Index (Z.of_nat (rows (mats w A))) in
  let A_copy := mats w A in
  if n <? 0 then (Undef, w)
  else
    let w1 := store_vec W (vector_resize (vecs w W) (Z.to_nat n)) w in
    let w2 := store_mat V (matrix_resize (mats w1 V) (Z.to_nat n) (Z.to_nat n)) w1 in
    let '(_, W_data, V_data, info) :=
      fortran_eigen_decomposition n (coeffs A_copy) (vecs w2 W) (coeffs (mats w2 V)) in
    let w3 := store_vec W (overwrite (vecs w2 W) W_data) w2 in
    let w4 := store_mat V (mkMatrix (rows (mats w3 V)) (cols (mats w3 V))
                             (overwrite (coeffs (mats w3 V)) V_data)) w3 in
    if negb (info =? 0)
    then (Throw (runtime_error
                   ("LAPACK eigen_decomposition failed with info code: "
                    ++ to_string info)%string), w4)
    else (Val tt, w4).

(** ** src/main.cpp *)

(** [void check_decomposition(A, W, V, method, outfile, relative_error)];
    the value stored in [relative_error] is returned *)
Definition check_decomposition (A : Matrix) (W : Vector) (V : Matrix)
    (method : string) : M double :=
  VD <- eigen_assert (times_diagonal V W) ;;
  V_inv <- eigen_assert (inverse V) ;;
  A_reconstructed <- eigen_assert (product VD V_inv) ;;
  D <- eigen_assert (matrix_sub A A_reconstructed) ;;
  let relative_error := (norm D / norm A)%float in
  cout_put [Str method; Str " relative reconstruction error: ";
            Dbl relative_error; Endl] ;;
  outfile_put [Str method; Str " relative reconstruction error: ";
               Dbl relative_error; Endl] ;;
  ret relative_error.

(** [double compute_condition_number(const MatrixXd &A)]; [None] when the
    vector of singular values has no coefficient 0 *)
Definition compute_condition_number (A : Matrix) : option double :=
  let sv := singularValues A in
  match sv with
  | [] => None
  | s0 :: _ => Some (s0 / last sv s0)%float
  end.

Definition condition_number_threshold : double := 1e6%float.

Definition is_yes (c : ascii) : bool := Ascii.eqb c "y" || Ascii.eqb c "Y".

(** the objects of [main] that are passed by reference *)
Definition obj_A : positive := 1.
Definition obj_V_fortran : positive := 2.
Definition obj_V_eigen : positive := 3.
Definition obj_W_fortran : positive := 1.
Definition obj_W_eigen : positive := 2.

(** lines 122-134: the [while] loop, entered with the answer just read *)
Fixpoint regenerate_loop (fuel : nat) (size : Z) (regenerate : ascii) : M unit :=
  if is_yes regenerate then
    match fuel with
    | O => out_of_fuel
    | S fuel' =>
        A <- Random size size ;;
        set_mat obj_A A ;;
        cond_number <- eigen_assert (compute_condition_number A) ;;
        cout_put [Str "Condition number of the new matrix: "; Dbl cond_number; Endl] ;;
        outfile_put [Str "Condition number of the new matrix: "; Dbl cond_number; Endl] ;;
        if (cond_number <=? condition_number_threshold)%float then ret tt
        else
          cout_put [Str "Regenerate again? (y/n): "] ;;
          answer <- cin_char ;;
          regenerate_loop fuel' size
            (match answer with Some c => c | None => regenerate end)
    end
  else ret tt.

(** lines 106-135: the first matrix, its condition number, the offer to
    regenerate *)
Definition generate (fuel : nat) (size : Z) : M unit :=
  A <- Random size size ;;
  set_mat obj_A A ;;
  cond_number <- eigen_assert (compute_condition_number A) ;;
  cout_put [Str "Condition number of the matrix: "; Dbl cond_number; Endl] ;;
  outfile_put [Str "Condition number of the matrix: "; Dbl cond_number; Endl] ;;
  if (condition_number_threshold <? cond_number)%float then
    cout_put [Str "Condition number is poor. Regenerate matrix for better condition number? (y/n): "] ;;
    answer <- cin_char ;;
    match answer with
    | Some regenerate => regenerate_loop fuel size regenerate
    | None => undef        (* [regenerate] is read without having been set *)
    end
  else ret tt.

(** lines 137-141 *)
Definition declare_results (size : Z) : M unit :=
  let n := Z.to_nat size in
  set_vec obj_W_fortran (unwritten n) ;;
  set_mat obj_V_fortran (mkMatrix n n (unwritten (n * n))) ;;
  set_vec obj_W_eigen (unwritten n) ;;
  set_mat obj_V_eigen (mkMatrix n n (unwritten (n * n))).

(** lines 148-164 *)
Definition fortran_phase : M double :=
  try_catch
    (start <- now ;;
     eigen_decomposition obj_A obj_W_fortran obj_V_fortran ;;
     end_ <- now ;;
     let duration_fortran := seconds (end_ - start) in
     cout_put [Str "Fortran LAPACK Duration: "; Dbl duration_fortran;
               Str " seconds"; Endl] ;;
     outfile_put [Str "Fortran LAPACK Duration: "; Dbl duration_fortran;
                  Str " seconds"; Endl] ;;
     ret duration_fortran)
    (fun e =>
       cerr_put [Str "Error in Fortran LAPACK eigenvalue decomposition: ";
                 Str (what e); Endl] ;;
       return_ 1).

(** the constructor [Eigen::EigenSolver<MatrixXd> solver(A)]: the complex
    eigenvalues and eigenvectors it holds.  Eigen asserts a square matrix. *)
Definition construct_solver (A : Matrix) : M (list complex * list complex) :=
  if Nat.eqb (rows A) (cols A) then
    match EigenSolver A with
    | inl e => throw e
    | inr solver => ret solver
    end
  else undef.

(** lines 171-190: the branch taken when [use_lapack_in_eigen] holds *)
Definition eigen_with_lapack : M double :=
  try_catch
    (start <- now ;;
     A <- get_mat obj_A ;;
     solver <- construct_solver A ;;
     set_vec obj_W_eigen (map real (fst solver)) ;;
     set_mat obj_V_eigen (mkMatrix (rows A) (cols A) (map real (snd solver))) ;;
     end_ <- now ;;
     let duration_eigen := seconds (end_ - start) in
     cout_put [Str "Eigen Library (with LAPACK) Duration: "; Dbl duration_eigen;
               Str " seconds"; Endl] ;;
     outfile_put [Str "Eigen Library (with LAPACK) Duration: "; Dbl duration_eigen;
                  Str " seconds"; Endl] ;;
     ret duration_eigen)
    (fun e =>
       cerr_put [Str "Error in Eigen library eigenvalue decomposition: ";
                 Str (what e); Endl] ;;
       return_ 1).

(** lines 194-213: the branch taken otherwise *)
Definition eigen_without_lapack : M double :=
  try_catch
    (start <- now ;;
     A <- get_mat obj_A ;;
     solver <- construct_solver A ;;
     set_vec obj_W_eigen (map real (fst solver)) ;;
     set_mat obj_V_eigen (mkMatrix (rows A) (cols A) (map real (snd solver))) ;;
     end_ <- now ;;
     let duration_eigen := seconds (end_ - start) in
     cout_put [Str "Eigen Library (without LAPACK) Duration: "; Dbl duration_eigen;
               Str " seconds"; Endl] ;;
     outfile_put [Str "Eigen Library (without LAPACK) Duration: "; Dbl duration_eigen;
                  Str " seconds"; Endl] ;;
     ret duration_eigen)
    (fun e =>
       cerr_put [Str "Error in Eigen library eigenvalue decomposition: ";
                 Str (what e); Endl] ;;
       return_ 1).

(** lines 169-214 *)
Definition eigen_phase (use_lapack_in_eigen : bool) : M double :=
  if use_lapack_in_eigen then eigen_with_lapack else eigen_without_lapack.

(** line 218: [(W_fortran - W_eigen).cwiseAbs().maxCoeff()] *)
Definition max_diff_values (W_fortran W_eigen : Vector) : option double :=
  match vector_sub W_fortran W_eigen with
  | Some d => maxCoeff (cwiseAbs d)
  | None => None
  end.

(** line 219: [(V_fortran - V_eigen).cwiseAbs().maxCoeff()] *)
Definition max_diff_vectors (V_fortran V_eigen : Matrix) : option double :=
  match matrix_sub V_fortran V_eigen with
  | Some D => maxCoeff (cwiseAbs (coeffs D))
  | None => None
  end.

Definition nl : string := String (ascii_of_nat 10) EmptyString.

(** lines 222-244 and, with the other stream, 246-267 *)
Definition summary (use_lapack_in_eigen : bool) (size : Z)
    (duration_fortran duration_eigen max_diff_values max_diff_vectors
     relative_error_fortran relative_error_eigen : double) : ostream :=
  [Str (nl ++ "Summary:" ++ nl)%string;
   Str "Chosen method: ";
   Str (if use_lapack_in_eigen then "Eigen with LAPACK" else "Eigen without LAPACK");
   Str nl;
   Str "Matrix size: "; Int size; Str nl;
   Str "Fortran LAPACK Duration: "; Dbl duration_fortran; Str (" seconds" ++ nl)%string;
   Str "Eigen Library Duration: "; Dbl duration_eigen; Str (" seconds" ++ nl)%string;
   Str "Maximum difference between Fortran LAPACK and Eigen eigenvalues: ";
   Dbl max_diff_values; Str nl;
   Str "Maximum difference between Fortran LAPACK and Eigen eigenvectors: ";
   Dbl max_diff_vectors; Str nl;
   Str "Fortran LAPACK relative reconstruction error: ";
   Dbl relative_error_fortran; Str nl;
   Str "Eigen Library relative reconstruction error: ";
   Dbl relative_error_eigen; Str nl;
   Str (if (duration_fortran <? duration_eigen)%float
        then "Fortran LAPACK" else "Eigen Library");
   Str " was faster by ";
   Dbl (PrimFloat.abs (duration_eigen - duration_fortran)%float);
   Str (" seconds" ++ nl)%string].

(** lines 137-270: everything after the matrix has been chosen *)
Definition compare (use_lapack_in_eigen : bool) (size : Z) : M unit :=
  declare_results size ;;
  duration_fortran <- fortran_phase ;;
  A <- get_mat obj_A ;;
  W_fortran <- get_vec obj_W_fortran ;;
  V_fortran <- get_mat obj_V_fortran ;;
  relative_error_fortran <- check_decomposition A W_fortran V_fortran "Fortran LAPACK" ;;
  duration_eigen <- eigen_phase use_lapack_in_eigen ;;
  A <- get_mat obj_A ;;
  W_eigen <- get_vec obj_W_eigen ;;
  V_eigen <- get_mat obj_V_eigen ;;
  relative_error_eigen <- check_decomposition A W_eigen V_eigen "Eigen Library" ;;
  W_fortran <- get_vec obj_W_fortran ;;
  W_eigen <- get_vec obj_W_eigen ;;
  V_fortran <- get_mat obj_V_fortran ;;
  V_eigen <- get_mat obj_V_eigen ;;
  max_values <- eigen_assert (max_diff_values W_fortran W_eigen) ;;
  max_vectors <- eigen_assert (max_diff_vectors V_fortran V_eigen) ;;
  cout_put (summary use_lapack_in_eigen size duration_fortran duration_eigen
              max_values max_vectors relative_error_fortran relative_error_eigen) ;;
  outfile_put (summary use_lapack_in_eigen size duration_fortran duration_eigen
                 max_values max_vectors relative_error_fortran relative_error_eigen) ;;
  return_ 0.

(** lines 99-135: from the flag to the chosen matrix *)
Definition setup (fuel : nat) (arg : string) : M (bool * Z) :=
  flag <- stoi arg ;;
  let use_lapack_in_eigen := negb (flag =? 0) in
  outfile_open ;;
  cout_put [Str "Enter the size of the matrix: "] ;;
  size <- cin_int ;;
  generate fuel size ;;
  ret (use_lapack_in_eigen, size).

(** [int main(int argc, char *argv[])], [argc] being the length of [argv] *)
Definition main (fuel : nat) (argv : list string) : M unit :=
  if negb (Nat.eqb (length argv) 2) then
    match argv with
    | argv0 :: _ =>
        cerr_put [Str "Usage: "; Str argv0; Str " <use_lapack_in_eigen: 0 or 1>"; Endl] ;;
        return_ 1
    | [] => undef            (* [argv[0]] is a null pointer *)
    end
  else
    r <- setup fuel (nth 1 argv EmptyString) ;;
    compare (fst r) (snd r).

(** how the process ends *)
Inductive status :=
| Exited (code : Z)          (* [main] returned [code] *)
| Terminated (e : exn)       (* an exception left [main]: [std::terminate] *)
| Undefined                  (* behaviour the language does not define *)
| Running.                   (* still in the regeneration loop *)

Definition run (fuel : nat) (argv : list string) (w : world) : status * world :=
  match main fuel argv w with
  | (Val _, w') => (Exited 0, w')
  | (Return c, w') => (Exited c, w')
  | (Throw e, w') => (Terminated e, w')
  | (Undef, w') => (Undefined, w')
  | (OutOfFuel, w') => (Running, w')
  end.

End Program.

(** ** A reference instance of the external code

    What the external code returns on diagonal matrices, where the singular
    values are the absolute diagonal entries, the eigenvalues the diagonal
    entries and the eigenvectors the unit vectors.  It is used to run the
    program on concrete inputs; no general theorem depends on it. *)

Module Reference.

Definition diagonal (A : Matrix) : list double :=
  map (fun i => coeff A i i) (seq 0 (Nat.min (rows A) (cols A))).

Fixpoint insert_desc (x : double) (l : list double) : list double :=
  match l with
  | [] => [x]
  | y :: l' => if (y <? x)%float then x :: l else y :: insert_desc x l'
  end.

Definition sort_desc (l : list double) : list double :=
  fold_right insert_desc [] l.

Definition singular_values (A : Matrix) : Vector :=
  sort_desc (cwiseAbs (diagonal A)).

Definition dot (A B : Matrix) (i j : nat) : double :=
  fold_left (fun acc k => (acc + coeff A i k * coeff B k j)%float)
            (seq 0 (cols A)) 0%float.

Definition naive_product (A B : Matrix) : list double :=
  map (fun k => dot A B (Nat.modulo k (rows A)) (Nat.div k (rows A)))
      (seq 0 (rows A * cols B)).

Definition identity_coeffs (n : nat) : list double :=
  map (fun k => if Nat.eqb (Nat.modulo k n) (Nat.div k n) then 1%float else 0%float)
      (seq 0 (n * n)).

Definition diagonal_inverse (V : Matrix) : list double :=
  map (fun k =>
         let i := Nat.modulo k (rows V) in
         if Nat.eqb i (Nat.div k (rows V)) then (1 / coeff V i i)%float else 0%float)
      (seq 0 (rows V * cols V)).

Definition root_sum_squares (A : Matrix) : double :=
  PrimFloat.sqrt (fold_left (fun acc x => (acc + x * x)%float) (coeffs A) 0%float).

Definition solver (A : Matrix) : exn + (list complex * list complex) :=
  inr (map (fun d => (d, 0%float)) (diagonal A),
       map (fun x => (x, 0%float)) (identity_coeffs (rows A))).

Definition fortran (info : Z) (n : Z) (a w v : list double)
  : list double * list double * list double * Z :=
  if info =? 0
  then (a, diagonal (mkMatrix (Z.to_nat n) (Z.to_nat n) a),
        identity_coeffs (Z.to_nat n), 0)
  else (a, w, v, info).

(** the generator yields [rnd] and then zeros, the clock advances by 1000
    ticks of a nanosecond per reading, the Fortran subroutine reports [info] *)
Definition external (rnd : list double) (info : Z) : External := {|
  random_coeff := fun k => nth k rnd 0%float;
  indeterminate := fun _ => 0%float;
  singularValues := singular_values;
  product_coeffs := naive_product;
  inverse_coeffs := diagonal_inverse;
  norm := root_sum_squares;
  EigenSolver := solver;
  fortran_eigen_decomposition := fortran info;
  clock_ticks := fun k => 1000 * Z.of_nat k;
  seconds := fun t => (PrimFloat.of_uint63 (Uint63.of_Z t) / 1e9)%float
|}.

(** program start: nothing written, standard input holding [input] *)
Definition start (input : string) : world :=
  mkWorld input false [] [] [] 0 0
          (fun _ => mkMatrix 0 0 []) (fun _ => []).

End Reference.

(** ** What the claims speak about *)

(** [V * diag(W) * V^-1], from Eigen's product and inverse *)
Definition reconstruction `{External} (W : Vector) (V : Matrix) : Matrix :=
  mkMatrix (rows V) (cols V)
    (product_coeffs (scaled_columns V W)
                    (mkMatrix (rows V) (cols V) (inverse_coeffs V))).

(** the Frobenius norm of [A - A'] over the Frobenius norm of [A] *)
Definition frobenius_ratio `{External} (A A' : Matrix) : double :=
  (norm (difference A A') / norm A)%float.

(** the line both streams receive from [check_decomposition] *)
Definition error_line (method : string) (relative_error : double) : ostream :=
  [Str method; Str " relative reconstruction error: "; Dbl relative_error; Endl].

(** the status the Fortran subroutine reports when the wrapper is called on
    the objects [A], [W], [V] in world [w] *)
Definition reported_info `{External} (A W V : positive) (w : world) : Z :=
  let n := int_of_Index (Z.of_nat (rows (mats w A))) in
  let w1 := store_vec W (vector_resize (vecs w W) (Z.to_nat n)) w in
  let w2 := store_mat V (matrix_resize (mats w1 V) (Z.to_nat n) (Z.to_nat n)) w1 in
  snd (fortran_eigen_decomposition n (coeffs (mats w A)) (vecs w2 W)
         (coeffs (mats w2 V))).

(** the message of the exception the wrapper throws for [info] *)
Definition failure_message (info : Z) : string :=
  ("LAPACK eigen_decomposition failed with info code: " ++ to_string info)%string.

(** what [main] writes before the decompositions: prompts and condition
    numbers *)
Definition generation_item (i : item) : Prop :=
  match i with
  | Str s =>
      s = "Enter the size of the matrix: "%string \/
      s = "Condition number of the matrix: "%string \/
      s = "Condition number is poor. Regenerate matrix for better condition number? (y/n): "%string \/
      s = "Condition number of the new matrix: "%string \/
      s = "Regenerate again? (y/n): "%string
  | Dbl _ => True
  | Int _ => False
  | Endl => True
  end.

(** the characters [std::cin >> c] extracts from [s], one per call *)
Fixpoint answers (s : string) : list ascii :=
  match s with
  | EmptyString => []
  | String c s' => if isspace c then answers s' else c :: answers s'
  end.

(** what [regenerate] holds at the k-th test of the loop condition: the k-th
    answer, and the last answer given once the input is exhausted, a failed
    extraction leaving the variable as it is *)
Definition answer (a : list ascii) (k : nat) : option ascii :=
  match a with
  | [] => None
  | c :: _ => Some (nth k a (last a c))
  end.

Definition accepts (a : list ascii) (k : nat) : Prop :=
  exists c, answer a k = Some c /\ is_yes c = true.

Definition declines (a : list ascii) (k : nat) : Prop :=
  exists c, answer a k = Some c /\ is_yes c = false.

(** the same, from inside the loop: [regenerate] holds [current] and the
    input still holds [rest] *)
Definition pending (current : ascii) (rest : list ascii) (k : nat) : ascii :=
  nth k (current :: rest) (last rest current).

(** the input of [std::cin >> c] in world [w] is [rest] *)
Definition cin_holds (w : world) (rest : list ascii) : Prop :=
  answers (cin w) = rest /\ (cin_fail w = true -> rest = []).

(** the matrix the k-th next call of [Random(size, size)] returns in [w] *)
Definition drawn `{External} (w : world) (size : Z) (k : nat) : Matrix :=
  let n := Z.to_nat size in
  mkMatrix n n (map random_coeff (seq (rand_count w + k * (n * n)) (n * n))).



(** what the generation phase does to the streams: it appends prompts and
    condition numbers to the two output streams and leaves the error stream
    alone *)
Definition generation_only (w w1 : world) : Prop :=
  (exists l, cout w1 = cout w ++ l /\ Forall generation_item l) /\
  (exists l, outfile w1 = outfile w ++ l /\ Forall generation_item l) /\
  cerr w1 = cerr w.

(** the matrix [A] of [main] is [size] x [size] *)
Definition sized (size : Z) (w : world) : Prop :=
  rows (mats w obj_A) = Z.to_nat size /\ cols (mats w obj_A) = Z.to_nat size.

(** the two spellings of the mode of the library backend, made one *)
Definition erase_mode (i : item) : item :=
  match i with
  | Str s =>
      if String.eqb s "Eigen Library (with LAPACK) Duration: "
      then Str "Eigen Library (without LAPACK) Duration: "
      else if String.eqb s "Eigen with LAPACK"
      then Str "Eigen without LAPACK"
      else i
  | _ => i
  end.

(** two worlds that differ at most in how the streams spell the mode *)
Definition same_but_labels (w w' : world) : Prop :=
  cin w = cin w' /\ cin_fail w = cin_fail w' /\
  map erase_mode (cout w) = map erase_mode (cout w') /\
  cerr w = cerr w' /\
  map erase_mode (outfile w) = map erase_mode (outfile w') /\
  rand_count w = rand_count w' /\ clock_count w = clock_count w' /\
  mats w = mats w' /\ vecs w = vecs w'.

(** two computations that agree up to the spelling of the mode *)
Definition agree {T} (m m' : M T) : Prop :=
  forall w w', same_but_labels w w' ->
    fst (m w) = fst (m' w') /\ same_but_labels (snd (m w)) (snd (m' w')).

(** a double that is a number *)
Definition is_number (x : double) : Prop := is_nan x = false.

(** the order in which [JacobiSVD] returns the singular values *)
Definition decreasing (sv : list double) : Prop :=
  Sorted (fun a b => (b <=? a)%float = true) sv.

(** an estimate that tells a singular matrix apart: no value at all, or the
    value standing for an infinite ratio *)
Definition reports_singularity `{External} (A : Matrix) : Prop :=
  compute_condition_number A = None \/
  compute_condition_number A = Some infinity.

(** the 1 x 1 zero matrix *)
Definition zero_1x1 : Matrix := mkMatrix 1 1 [0%float].

(** the matrix of scenario A of the specification, [[2,0],[0,3]] *)
Definition diag_2_3 : Matrix := mkMatrix 2 2 [2; 0; 0; 3]%float.

(** a singular matrix, [[1,0],[0,0]] *)
Definition diag_1_0 : Matrix := mkMatrix 2 2 [1; 0; 0; 0]%float.

(** ** What the further properties speak about *)

(** what the Fortran subroutine writes into the buffers of [W] and [V] when
    the wrapper is called on the objects [A], [W], [V] in world [w] *)
Definition subroutine_outputs `{External} (A W V : positive) (w : world)
  : list double * list double :=
  let n := int_of_Index (Z.of_nat (rows (mats w A))) in
  let w1 := store_vec W (vector_resize (vecs w W) (Z.to_nat n)) w in
  let w2 := store_mat V (matrix_resize (mats w1 V) (Z.to_nat n) (Z.to_nat n)) w1 in
  let '(_, W_data, V_data, _) :=
    fortran_eigen_decomposition n (coeffs (mats w A)) (vecs w2 W)
      (coeffs (mats w2 V)) in
  (W_data, V_data).

(** the line both streams receive for the first matrix *)
Definition first_line (c : double) : ostream :=
  [Str "Condition number of the matrix: "; Dbl c; Endl].

(** the line both streams receive for a regenerated matrix *)
Definition new_line (c : double) : ostream :=
  [Str "Condition number of the new matrix: "; Dbl c; Endl].

(** the condition-number lines of the first matrix and of [n] regenerated
    ones, [conds j] being the condition number of matrix [j] *)
Definition logged (conds : nat -> double) (n : nat) : ostream :=
  first_line (conds 0%nat)
  ++ flat_map (fun j => new_line (conds (S j))) (seq 0 n).

(** the questions put to the operator: they go to the console only *)
Definition is_prompt (i : item) : bool :=
  match i with
  | Str s =>
      String.eqb s "Enter the size of the matrix: "
      || String.eqb s "Condition number is poor. Regenerate matrix for better condition number? (y/n): "
      || String.eqb s "Regenerate again? (y/n): "
  | _ => false
  end.

(** console output without the questions *)
Definition file_part (l : ostream) : ostream :=
  filter (fun i => negb (is_prompt i)) l.

(** since the console held [c0], the results file has received what the
    console has, the questions apart *)
Definition mirrored (c0 : ostream) (w : world) : Prop :=
  exists l, cout w = c0 ++ l /\ outfile w = file_part l.

(** a computation that keeps the results file in step with the console *)
Definition keeps {T} (m : M T) : Prop :=
  forall c0 w, mirrored c0 w -> mirrored c0 (snd (m w)).

(** a computation that writes to neither of them *)
Definition silent {T} (m : M T) : Prop :=
  forall w, cout (snd (m w)) = cout w /\ outfile (snd (m w)) = outfile w.

(** the line both streams receive when the native backend has returned *)
Definition fortran_duration_line (d : double) : ostream :=
  [Str "Fortran LAPACK Duration: "; Dbl d; Str " seconds"; Endl].

(** the line both streams receive when the library backend has returned *)
Definition eigen_duration_line (flag : bool) (d : double) : ostream :=
  [Str (if flag then "Eigen Library (with LAPACK) Duration: "
        else "Eigen Library (without LAPACK) Duration: ");
   Dbl d; Str " seconds"; Endl].

(** the line the error stream receives when the library backend throws *)
Definition library_error_line (e : exn) : ostream :=
  [Str "Error in Eigen library eigenvalue decomposition: "; Str (what e); Endl].

(** the reference instance with a solver whose constructor throws [e] *)
Definition failing_solver (rnd : list double) (e : exn) : External := {|
  random_coeff := @random_coeff (Reference.external rnd 0);
  indeterminate := @indeterminate (Reference.external rnd 0);
  singularValues := @singularValues (Reference.external rnd 0);
  product_coeffs := @product_coeffs (Reference.external rnd 0);
  inverse_coeffs := @inverse_coeffs (Reference.external rnd 0);
  norm := @norm (Reference.external rnd 0);
  EigenSolver := fun _ => inl e;
  fortran_eigen_decomposition :=
    @fortran_eigen_decomposition (Reference.external rnd 0);
  clock_ticks := @clock_ticks (Reference.external rnd 0);
  seconds := @seconds (Reference.external rnd 0)
|}.

(** ** Auxiliary definitions for the binary64 facts *)

(** the binary64 number 1 *)
Definition SF_one : spec_float := S754_finite false 4503599627370496 (-52).

(** the last step of [binary_round_aux] *)
Definition SF_pack (mrs : shr_record) (e : Z) : spec_float :=
  match shr_m mrs with
  | Z0 => S754_zero false
  | Zpos m =>
      if Z.leb e (emax - prec) then S754_finite false m e
      else S754_infinity false
  | Zneg _ => S754_nan
  end.

(** a comparison read from the other side *)
Definition opp_cmp (c : option comparison) : option comparison :=
  match c with Some c => Some (CompOpp c) | None => None end.

(** * Facts about binary64 *)

Section Binary64.

Lemma digits2_lower p : 2 ^ (Zpos (digits2_pos p) - 1) <= Zpos p.
Proof.
  induction p as [p IH|p IH|]; cbn [digits2_pos].
  - rewrite Pos2Z.inj_succ.
    replace (Z.succ (Zpos (digits2_pos p)) - 1)
      with (Z.succ (Zpos (digits2_pos p) - 1)) by lia.
    rewrite Z.pow_succ_r by lia. lia.
  - rewrite Pos2Z.inj_succ.
    replace (Z.succ (Zpos (digits2_pos p)) - 1)
      with (Z.succ (Zpos (digits2_pos p) - 1)) by lia.
    rewrite Z.pow_succ_r by lia. lia.
  - simpl. lia.
Qed.

Lemma digits2_upper p : Zpos p < 2 ^ Zpos (digits2_pos p).
Proof.
  induction p as [p IH|p IH|]; cbn [digits2_pos].
  - rewrite Pos2Z.inj_succ, Z.pow_succ_r by lia. lia.
  - rewrite Pos2Z.inj_succ, Z.pow_succ_r by lia. lia.
  - simpl. lia.
Qed.

Lemma digits2_unique p d :
  2 ^ (d - 1) <= Zpos p < 2 ^ d -> Zpos (digits2_pos p) = d.
Proof.
  intros [Hl Hu].
  pose proof (digits2_lower p) as Hl'. pose proof (digits2_upper p) as Hu'.
  assert (0 < d).
  { destruct (Z_lt_le_dec 0 d); auto.
    assert (2 ^ d <= 2 ^ 0)
      by (destruct (Z_lt_le_dec d 0);
          [rewrite Z.pow_neg_r by lia; simpl; lia | apply Z.pow_le_mono_r; lia]).
    simpl in *. lia. }
  destruct (Z_lt_le_dec (Zpos (digits2_pos p)) d).
  - assert (2 ^ Zpos (digits2_pos p) <= 2 ^ (d - 1))
      by (apply Z.pow_le_mono_r; lia).
    lia.
  - destruct (Z_lt_le_dec d (Zpos (digits2_pos p))); [|lia].
    assert (2 ^ d <= 2 ^ (Zpos (digits2_pos p) - 1))
      by (apply Z.pow_le_mono_r; lia).
    lia.
Qed.

Lemma digits2_mono p q :
  (p <= q)%positive -> Zpos (digits2_pos p) <= Zpos (digits2_pos q).
Proof.
  intros H. pose proof (digits2_lower p). pose proof (digits2_upper q).
  destruct (Z_lt_le_dec (Zpos (digits2_pos q)) (Zpos (digits2_pos p)));
    [|assumption].
  assert (2 ^ Zpos (digits2_pos q) <= 2 ^ (Zpos (digits2_pos p) - 1))
    by (apply Z.pow_le_mono_r; lia).
  lia.
Qed.

Lemma shr_m_of_loc m l : shr_m (shr_record_of_loc m l) = m.
Proof. destruct l as [|[]]; reflexivity. Qed.

Lemma shr_m_shr_1 mrs : 0 <= shr_m mrs -> shr_m (shr_1 mrs) = shr_m mrs / 2.
Proof.
  destruct mrs as [m r s]; simpl. intros Hm.
  destruct m as [|[p|p|]|p]; cbn [shr_m]; try reflexivity; try lia.
  - apply Z.div_unique with (r := 1); lia.
  - apply Z.div_unique with (r := 0); lia.
Qed.

Lemma round_nearest_even_bounds m l : m <= round_nearest_even m l <= m + 1.
Proof. destruct l as [|[]]; simpl; try lia. destruct (Z.even m); lia. Qed.

Lemma renormalise_ge_one m1 e1 :
  2 ^ 52 <= m1 <= 2 ^ 53 -> -52 <= e1 ->
  SFleb SF_one (let '(mrs, e) := shr_fexp prec emax m1 e1 loc_Exact in
                SF_pack mrs e) = true.
Proof.
  intros Hm He.
  destruct m1 as [|p|p]; try (simpl in Hm; lia).
  unfold shr_fexp. cbn [Zdigits2].
  destruct (Z.eq_dec (Zpos p) (2 ^ 53)) as [E|NE].
  - inversion E; subst p. vm_compute digits2_pos.
    unfold fexp, emin, prec, emax.
    replace (Z.max (54 + e1 - 53) (3 - 1024 - 53) - e1) with 1 by lia.
    cbn. unfold SF_pack. cbn.
    destruct (Z.leb_spec (e1 + 1) 971).
    + unfold SFleb, SFcompare, SF_one.
      destruct (Z.compare_spec (-52) (e1 + 1)); try reflexivity; lia.
    + reflexivity.
  - assert (Hd : Zpos (digits2_pos p) = 53).
    { apply digits2_unique. change (53 - 1) with 52. lia. }
    rewrite Hd. unfold fexp, emin, prec, emax.
    replace (Z.max (53 + e1 - 53) (3 - 1024 - 53) - e1) with 0 by lia.
    cbn. unfold SF_pack. cbn.
    destruct (Z.leb_spec e1 971).
    + unfold SFleb, SFcompare, SF_one.
      destruct (Z.compare_spec (-52) e1); try reflexivity; try lia.
      assert (Hc : (4503599627370496 <= p)%positive)
        by (change (2 ^ 52) with 4503599627370496 in Hm; lia).
      rewrite Pos.compare_cont_spec. simpl.
      apply Pos.compare_le_iff in Hc.
      destruct (4503599627370496 ?= p)%positive; try reflexivity. congruence.
    + reflexivity.
Qed.

Lemma truncate_keeps_magnitude q e l :
  2 ^ 52 <= q < 2 ^ 54 -> -53 <= e -> (2 ^ 53 <= q \/ -52 <= e) ->
  exists mrs e1, shr_fexp prec emax q e l = (mrs, e1) /\
                 2 ^ 52 <= shr_m mrs < 2 ^ 53 /\ -52 <= e1.
Proof.
  intros Hq He Hor.
  destruct q as [|p|p]; try (simpl in Hq; lia).
  unfold shr_fexp. cbn [Zdigits2].
  destruct (Z_lt_le_dec (Zpos p) (2 ^ 53)) as [Hlt|Hge].
  - assert (Hd : Zpos (digits2_pos p) = 53)
      by (apply digits2_unique; change (53 - 1) with 52; lia).
    rewrite Hd. unfold fexp, emin, prec, emax.
    replace (Z.max (53 + e - 53) (3 - 1024 - 53) - e) with 0 by lia.
    cbn [shr]. eexists _, _. split; [reflexivity|].
    rewrite shr_m_of_loc. lia.
  - assert (Hd : Zpos (digits2_pos p) = 54)
      by (apply digits2_unique; change (54 - 1) with 53; lia).
    rewrite Hd. unfold fexp, emin, prec, emax.
    replace (Z.max (54 + e - 53) (3 - 1024 - 53) - e) with 1 by lia.
    cbn [shr iter_pos]. eexists _, _. split; [reflexivity|].
    rewrite shr_m_shr_1, shr_m_of_loc by (rewrite shr_m_of_loc; lia).
    split; [|lia].
    change (2 ^ 54) with (2 * 2 ^ 53) in Hq.
    change (2 ^ 53) with (2 * 2 ^ 52) in Hge.
    split.
    + apply Z.div_le_lower_bound; lia.
    + apply Z.div_lt_upper_bound; lia.
Qed.

Lemma binary_round_aux_ge_one q e l :
  2 ^ 52 <= q < 2 ^ 54 -> -53 <= e -> (2 ^ 53 <= q \/ -52 <= e) ->
  SFleb SF_one (binary_round_aux prec emax false q e l) = true.
Proof.
  intros Hq He Hor.
  destruct (truncate_keeps_magnitude q e l Hq He Hor) as (mrs & e1 & E & Hm & He1).
  unfold binary_round_aux. rewrite E.
  pose proof (round_nearest_even_bounds (shr_m mrs) (loc_of_shr_record mrs)) as Hr.
  apply (renormalise_ge_one
           (round_nearest_even (shr_m mrs) (loc_of_shr_record mrs)) e1); lia.
Qed.

Lemma bounded_inv m e :
  bounded prec emax m e = true ->
  e = Z.max (Zpos (digits2_pos m) + e - 53) (-1074) /\ e <= 971.
Proof.
  unfold bounded, canonical_mantissa, fexp, emin, prec, emax.
  intros H. apply andb_prop in H. destruct H as [H1 H2].
  apply Z.eqb_eq in H1. apply Z.leb_le in H2. lia.
Qed.

Lemma SFleb_finite_pos_inv mx ex my ey :
  SFleb (S754_finite false my ey) (S754_finite false mx ex) = true ->
  ey < ex \/ (ey = ex /\ (my <= mx)%positive).
Proof.
  unfold SFleb, SFcompare.
  destruct (Z.compare_spec ey ex) as [E|L|G]; intros H; try lia; try discriminate.
  right. split; [assumption|].
  rewrite Pos.compare_cont_spec in H. simpl in H.
  unfold Pos.le. destruct (my ?= mx)%positive; simpl in H; congruence.
Qed.

(** dividing a positive binary64 number by a smaller one rounds to at least 1 *)
Lemma SFdiv_finite_ge_one mx ex my ey :
  bounded prec emax mx ex = true -> bounded prec emax my ey = true ->
  SFleb (S754_finite false my ey) (S754_finite false mx ex) = true ->
  SFleb SF_one
        (SFdiv prec emax (S754_finite false mx ex) (S754_finite false my ey)) = true.
Proof.
  intros Bx By Hle.
  apply bounded_inv in Bx, By. destruct Bx as [Cx Ux], By as [Cy Uy].
  apply SFleb_finite_pos_inv in Hle.
  pose proof (digits2_lower mx) as Lx. pose proof (digits2_upper mx) as Hx.
  pose proof (digits2_lower my) as Ly. pose proof (digits2_upper my) as Hy.
  set (d1 := Zpos (digits2_pos mx)) in *. set (d2 := Zpos (digits2_pos my)) in *.
  assert (Hd1 : 1 <= d1 <= 53) by (unfold d1; lia).
  assert (Hd2 : 1 <= d2 <= 53) by (unfold d2; lia).
  assert (Hex : ey <= ex) by lia.
  assert (Hdd : d2 <= d1).
  { destruct Hle as [L|[E L]]; [lia|]. apply digits2_mono; assumption. }
  (* the exact quotient is at least one *)
  assert (HA : Zpos my <= Zpos mx * 2 ^ (ex - ey)).
  { destruct Hle as [L|[E L]].
    - assert (d1 = 53) by lia.
      assert (2 ^ 1 <= 2 ^ (ex - ey)) by (apply Z.pow_le_mono_r; lia).
      assert (2 ^ d2 <= 2 ^ 53) by (apply Z.pow_le_mono_r; lia).
      replace (d1 - 1) with 52 in Lx by lia.
      change (2 ^ 1) with 2 in *. change (2 ^ 53) with (2 * 2 ^ 52) in *. nia.
    - subst ey. rewrite Z.sub_diag. simpl. lia. }
  unfold SFdiv, SFdiv_core_binary. cbn [Zdigits2 xorb]. fold d1 d2.
  set (delta := d1 + ex - (d2 + ey)).
  assert (Hdelta : 0 <= delta) by (unfold delta; lia).
  assert (Ee : Z.min (fexp prec emax delta) (ex - ey) = delta - 53).
  { unfold fexp, emin, prec, emax, delta. lia. }
  rewrite Ee.
  set (s := ex - ey - (delta - 53)).
  assert (Es : s = 53 - d1 + d2) by (unfold s, delta; lia).
  assert (Hs : 1 <= s) by lia.
  destruct s as [|ps|ps] eqn:Eqs; try lia.
  rewrite <- Eqs in *. clear Eqs ps.
  rewrite Z.shiftl_mul_pow2 by lia.
  pose proof (Z.div_eucl_eq (Zpos mx * 2 ^ s) (Zpos my) ltac:(lia)) as Hdiv.
  pose proof (Z.mod_pos_bound (Zpos mx * 2 ^ s) (Zpos my) ltac:(lia)) as Hmod.
  unfold Z.modulo in Hmod.
  destruct (Z.div_eucl (Zpos mx * 2 ^ s) (Zpos my)) as [q r].
  (* size of the shifted dividend *)
  assert (Hm'l : 2 ^ (52 + d2) <= Zpos mx * 2 ^ s).
  { replace (52 + d2) with ((d1 - 1) + s) by lia. rewrite Z.pow_add_r by lia.
    apply Z.mul_le_mono_nonneg_r; [apply Z.pow_nonneg; lia|assumption]. }
  assert (Hm'u : Zpos mx * 2 ^ s < 2 ^ (53 + d2)).
  { replace (53 + d2) with (d1 + s) by lia. rewrite Z.pow_add_r by lia.
    apply Z.mul_lt_mono_pos_r; [apply Z.pow_pos_nonneg; lia|assumption]. }
  assert (P2 : 2 ^ (52 + d2) = 2 ^ 52 * 2 ^ d2) by (rewrite Z.pow_add_r; lia).
  assert (P3 : 2 ^ (53 + d2) = 2 ^ 54 * 2 ^ (d2 - 1)).
  { replace (53 + d2) with (54 + (d2 - 1)) by lia. rewrite Z.pow_add_r; lia. }
  assert (Hq : 2 ^ 52 <= q < 2 ^ 54).
  { assert (0 < 2 ^ (d2 - 1)) by (apply Z.pow_pos_nonneg; lia).
    assert (0 < 2 ^ d2) by (apply Z.pow_pos_nonneg; lia).
    split; nia. }
  apply binary_round_aux_ge_one; [assumption|lia|].
  destruct (Z.eq_dec delta 0) as [D0|DN]; [left|right; lia].
  (* equal magnitudes: the quotient has 54 digits *)
  assert (Es' : s = (ex - ey) + 53) by (unfold s; lia).
  rewrite Es', Z.pow_add_r in Hdiv by lia.
  assert (0 < 2 ^ 53) by reflexivity.
  nia.
Qed.

(** *** The order of binary64 *)

Lemma SFcompare_antisym x y : SFcompare y x = opp_cmp (SFcompare x y).
Proof.
  destruct x as [[]|[]| |[] mx ex], y as [[]|[]| |[] my ey]; try reflexivity;
    cbn [SFcompare opp_cmp]; f_equal;
    rewrite (Z.compare_antisym ex ey);
    destruct (ex ?= ey); cbn [CompOpp]; try reflexivity;
    rewrite (Pos.compare_cont_antisym mx my Eq); reflexivity.
Qed.

Lemma SFcompare_refl x : x <> S754_nan -> SFcompare x x = Some Eq.
Proof.
  destruct x as [[]|[]| |[] m e]; intros H; try reflexivity; try congruence;
    cbn [SFcompare]; rewrite Z.compare_refl, Pos.compare_cont_refl; reflexivity.
Qed.

Lemma SFcompare_some x y :
  x <> S754_nan -> y <> S754_nan -> exists c, SFcompare x y = Some c.
Proof.
  destruct x as [[]|[]| |[] mx ex], y as [[]|[]| |[] my ey]; intros Hx Hy;
    try congruence; cbn [SFcompare]; eexists; reflexivity.
Qed.

Ltac cmp_cases :=
  repeat match goal with
  | |- context [Z.compare ?a ?b] => destruct (Z.compare_spec a b)
  | |- context [Pos.compare_cont Eq ?a ?b] =>
      rewrite (Pos.compare_cont_spec a b Eq); cbn [Pos.switch_Eq];
      destruct (Pos.compare_spec a b)
  | H : context [Z.compare ?a ?b] |- _ => destruct (Z.compare_spec a b)
  | H : context [Pos.compare_cont Eq ?a ?b] |- _ =>
      rewrite (Pos.compare_cont_spec a b Eq) in H; cbn [Pos.switch_Eq] in H;
      destruct (Pos.compare_spec a b)
  end.

Lemma SFleb_trans x y z :
  SFleb x y = true -> SFleb y z = true -> SFleb x z = true.
Proof.
  unfold SFleb.
  destruct x as [[]|[]| |[] mx ex], y as [[]|[]| |[] my ey],
           z as [[]|[]| |[] mz ez];
    cbn [SFcompare]; intros H1 H2; try reflexivity; try discriminate;
    cmp_cases; cbn [CompOpp] in *; try reflexivity; try discriminate; try lia.
Qed.

(** *** The same, on primitive floats *)

Lemma number_not_nan x : is_number x -> Prim2SF x <> S754_nan.
Proof.
  unfold is_number, is_nan. rewrite FloatAxioms.eqb_spec. intros H E.
  rewrite E in H. discriminate.
Qed.

Lemma not_nan_number x : Prim2SF x <> S754_nan -> is_number x.
Proof.
  unfold is_number, is_nan. rewrite FloatAxioms.eqb_spec. intros H.
  unfold SFeqb. rewrite SFcompare_refl by assumption. reflexivity.
Qed.

Lemma leb_trans x y z :
  (x <=? y)%float = true -> (y <=? z)%float = true -> (x <=? z)%float = true.
Proof. rewrite !FloatAxioms.leb_spec. apply SFleb_trans. Qed.

Lemma leb_refl x : is_number x -> (x <=? x)%float = true.
Proof.
  intros H. rewrite FloatAxioms.leb_spec. unfold SFleb.
  rewrite SFcompare_refl by (apply number_not_nan; assumption). reflexivity.
Qed.

Lemma ltb_leb x y : (x <? y)%float = true -> (x <=? y)%float = true.
Proof.
  rewrite FloatAxioms.ltb_spec, FloatAxioms.leb_spec. unfold SFltb, SFleb.
  destruct (SFcompare (Prim2SF x) (Prim2SF y)) as [[]|]; congruence.
Qed.

Lemma ltb_leb_false x y : (x <? y)%float = true -> (y <=? x)%float = false.
Proof.
  rewrite FloatAxioms.ltb_spec, FloatAxioms.leb_spec. unfold SFltb, SFleb.
  rewrite (SFcompare_antisym (Prim2SF x) (Prim2SF y)).
  destruct (SFcompare (Prim2SF x) (Prim2SF y)) as [[]|]; simpl; congruence.
Qed.

Lemma leb_total x y :
  is_number x -> is_number y ->
  (x <? y)%float = false -> (y <=? x)%float = true.
Proof.
  intros Hx Hy. apply number_not_nan in Hx, Hy.
  rewrite FloatAxioms.ltb_spec, FloatAxioms.leb_spec. unfold SFltb, SFleb.
  rewrite (SFcompare_antisym (Prim2SF x) (Prim2SF y)).
  destruct (SFcompare_some _ _ Hx Hy) as [c ->].
  destruct c; simpl; congruence.
Qed.

Lemma ltb_number_r x y : (x <? y)%float = true -> is_number y.
Proof.
  rewrite FloatAxioms.ltb_spec. intros H. apply not_nan_number. intros E.
  rewrite E in H. unfold SFltb in H.
  destruct (Prim2SF x) as [[]|[]| |[] m e]; discriminate.
Qed.

Lemma abs_number x : is_number x -> is_number (PrimFloat.abs x).
Proof.
  intros H. apply number_not_nan in H. apply not_nan_number.
  rewrite FloatAxioms.abs_spec. destruct (Prim2SF x); simpl; congruence.
Qed.

(** a positive double divided by a smaller positive one is at least 1 *)
Lemma div_ge_one x y :
  (0 <? y)%float = true -> (y <? infinity)%float = true ->
  (y <=? x)%float = true -> (1 <=? x / y)%float = true.
Proof.
  rewrite !FloatAxioms.ltb_spec, !FloatAxioms.leb_spec, FloatAxioms.div_spec.
  change (Prim2SF 0) with (S754_zero false).
  change (Prim2SF infinity) with (S754_infinity false).
  change (Prim2SF 1) with SF_one.
  pose proof (Prim2SF_valid x) as Vx. pose proof (Prim2SF_valid y) as Vy.
  destruct (Prim2SF y) as [sy|sy| |sy my ey]; try discriminate.
  - destruct sy; discriminate.
  - destruct sy; [discriminate|]. intros _ _ Hle.
    destruct (Prim2SF x) as [sx|sx| |sx mx ex]; try discriminate.
    + destruct sx; [discriminate|]. reflexivity.
    + destruct sx; [discriminate|].
      apply SFdiv_finite_ge_one; assumption.
Qed.

(** a positive double divided by zero is the infinite double *)
Lemma div_pos_zero x : (0 <? x)%float = true -> (x / 0)%float = infinity.
Proof.
  rewrite FloatAxioms.ltb_spec. change (Prim2SF 0) with (S754_zero false). intros H.
  apply Prim2SF_inj. rewrite FloatAxioms.div_spec.
  change (Prim2SF 0) with (S754_zero false).
  change (Prim2SF infinity) with (S754_infinity false).
  destruct (Prim2SF x) as [sx|sx| |sx mx ex]; try discriminate;
    destruct sx; try discriminate; reflexivity.
Qed.

End Binary64.

(** * Lists of doubles *)

Section Lists.

Lemma last_In {T} (l : list T) (d : T) : l <> [] -> In (last l d) l.
Proof.
  induction l as [|x [|y l'] IH]; intros H; [congruence|left; reflexivity|].
  right. apply IH. discriminate.
Qed.

Lemma strongly_sorted_last {T} (R : T -> T -> Prop) (l : list T) (d : T) :
  StronglySorted R l ->
  forall x, In x l -> x = last l d \/ R x (last l d).
Proof.
  induction 1 as [|a l Hs IH Hall]; intros x Hin; [destruct Hin|].
  destruct l as [|b l'].
  - destruct Hin as [<-|[]]. left. reflexivity.
  - change (last (a :: b :: l') d) with (last (b :: l') d).
    destruct Hin as [<-|Hin].
    + right. rewrite Forall_forall in Hall. apply Hall.
      apply last_In. discriminate.
    + apply IH. assumption.
Qed.

Lemma decreasing_strongly sv :
  decreasing sv -> StronglySorted (fun a b => (b <=? a)%float = true) sv.
Proof.
  apply Sorted_StronglySorted. intros a b c Hab Hbc.
  exact (leb_trans c b a Hbc Hab).
Qed.

Lemma zip_with_length {T U R} (f : T -> U -> R) a b :
  length a = length b -> length (zip_with f a b) = length a.
Proof.
  revert b. induction a as [|x a IH]; intros [|y b] H; simpl in *;
    try reflexivity; try discriminate.
  f_equal. apply IH. congruence.
Qed.

Lemma zip_with_nth {T U R} (f : T -> U -> R) a b i da db d :
  length a = length b -> (i < length a)%nat ->
  nth i (zip_with f a b) d = f (nth i a da) (nth i b db).
Proof.
  revert b i. induction a as [|x a IH]; intros [|y b] i H Hi; simpl in *;
    try lia; try discriminate.
  destruct i as [|i]; [reflexivity|]. apply IH; [congruence|lia].
Qed.

(** the running maximum of [maxCoeff] dominates what it has seen and is one
    of the values seen *)
Lemma running_max_spec (xs : list double) (acc : double) :
  is_number acc -> Forall is_number xs ->
  let r := fold_left (fun m y => if (m <? y)%float then y else m) xs acc in
  (r = acc \/ In r xs) /\ (acc <=? r)%float = true /\
  forall y, In y xs -> (y <=? r)%float = true.
Proof.
  revert acc. induction xs as [|x xs IH]; intros acc Hacc Hxs; cbn [fold_left].
  - split; [left; reflexivity|]. split; [apply leb_refl; assumption|].
    intros y [].
  - inversion Hxs as [|? ? Hx Hxs']; subst.
    destruct (acc <? x)%float eqn:E.
    + destruct (IH x Hx Hxs') as (Hin & Hle & Hall).
      split; [right; destruct Hin as [->|Hin]; [left; reflexivity|right; assumption]|].
      split; [apply leb_trans with x; [apply ltb_leb; assumption|assumption]|].
      intros y [<-|Hy]; [assumption|apply Hall; assumption].
    + destruct (IH acc Hacc Hxs') as (Hin & Hle & Hall).
      split; [destruct Hin as [->|Hin]; [left; reflexivity|right; right; assumption]|].
      split; [assumption|].
      intros y [<-|Hy]; [|apply Hall; assumption].
      apply leb_trans with acc; [apply leb_total; assumption|assumption].
Qed.

Lemma maxCoeff_spec (v : list double) :
  v <> [] -> Forall is_number v ->
  exists r, maxCoeff v = Some r /\ In r v /\
            forall y, In y v -> (y <=? r)%float = true.
Proof.
  destruct v as [|x xs]; intros Hne Hall; [congruence|].
  inversion Hall as [|? ? Hx Hxs]; subst.
  destruct (running_max_spec xs x Hx Hxs) as (Hin & Hle & Hdom).
  eexists. split; [reflexivity|]. split.
  - destruct Hin as [->|Hin]; [left; reflexivity|right; assumption].
  - intros y [<-|Hy]; [assumption|apply Hdom; assumption].
Qed.

(** coefficient [i] of [(a - b).cwiseAbs()] *)
Lemma abs_diff_nth (a b : list double) (i : nat) :
  length a = length b -> (i < length a)%nat ->
  nth i (cwiseAbs (zip_with PrimFloat.sub a b)) 0%float
  = PrimFloat.abs (nth i a 0 - nth i b 0)%float.
Proof.
  intros Hl Hi. unfold cwiseAbs.
  change 0%float with (PrimFloat.abs 0%float) at 1.
  rewrite map_nth. f_equal. apply zip_with_nth; assumption.
Qed.

(** the maximum of the absolute differences of two arrays of equal length *)
Lemma max_abs_diff_spec (a b : list double) :
  length a = length b -> (0 < length a)%nat ->
  (forall i, (i < length a)%nat -> is_number (nth i a 0 - nth i b 0)%float) ->
  exists r,
    maxCoeff (cwiseAbs (zip_with PrimFloat.sub a b)) = Some r /\
    (exists i, (i < length a)%nat /\
               r = PrimFloat.abs (nth i a 0 - nth i b 0)%float) /\
    (forall i, (i < length a)%nat ->
               (PrimFloat.abs (nth i a 0 - nth i b 0) <=? r)%float = true).
Proof.
  intros Hl Hpos Hnum.
  set (d := cwiseAbs (zip_with PrimFloat.sub a b)).
  assert (Hlen : length d = length a).
  { unfold d, cwiseAbs. rewrite length_map. apply zip_with_length. assumption. }
  assert (Hd : Forall is_number d).
  { apply Forall_forall. intros x Hx.
    destruct (In_nth d x 0%float Hx) as (i & Hi & <-).
    rewrite Hlen in Hi. unfold d. rewrite abs_diff_nth by assumption.
    apply abs_number. apply Hnum. assumption. }
  destruct (maxCoeff_spec d) as (r & Hr & Hin & Hdom); [|assumption|].
  { intros E. rewrite E in Hlen. simpl in Hlen. lia. }
  exists r. split; [assumption|]. split.
  - destruct (In_nth d r 0%float Hin) as (i & Hi & E).
    rewrite Hlen in Hi. exists i. split; [assumption|].
    rewrite <- E. unfold d. apply abs_diff_nth; assumption.
  - intros i Hi. rewrite <- abs_diff_nth by assumption. apply Hdom.
    apply nth_In. fold d. lia.
Qed.

End Lists.

(** * The condition number (src/main.cpp, lines 68-74) *)

Section ConditionNumber.

Context `{ext : External}.

Lemma compute_condition_number_eq (A : Matrix) (s0 : double) (rest : list double) :
  singularValues A = s0 :: rest ->
  compute_condition_number A = Some (s0 / last (s0 :: rest) s0)%float.
Proof. intros E. unfold compute_condition_number. rewrite E. reflexivity. Qed.

(** C5.  For a matrix whose singular values [JacobiSVD] returns in decreasing
    order, [compute_condition_number] returns the first of them divided by
    the last; these are the largest and the smallest singular value; and
    when the smallest is positive and finite (the matrix is nonsingular) the
    returned double is at least 1. *)
Theorem condition_number_is_extreme_ratio
    (A : Matrix) (s_max : double) (rest : list double) :
  singularValues A = s_max :: rest ->
  decreasing (singularValues A) ->
  compute_condition_number A
    = Some (s_max / last (singularValues A) s_max)%float
  /\ (Forall is_number (singularValues A) ->
      forall s, In s (singularValues A) ->
                (s <=? s_max)%float = true /\
                (last (singularValues A) s_max <=? s)%float = true)
  /\ ((0 <? last (singularValues A) s_max)%float = true ->
      (last (singularValues A) s_max <? infinity)%float = true ->
      (1 <=? s_max / last (singularValues A) s_max)%float = true).
Proof.
  intros E Hdec. pose proof (decreasing_strongly _ Hdec) as Hs.
  rewrite E in *.
  split; [apply compute_condition_number_eq; assumption|].
  assert (Hlast : forall s, In s (s_max :: rest) ->
            s = last (s_max :: rest) s_max \/
            (last (s_max :: rest) s_max <=? s)%float = true)
    by (intros s Hin;
        exact (strongly_sorted_last (fun a b => (b <=? a)%float = true)
                 _ _ Hs s Hin)).
  split.
  - intros Hnum s Hin. rewrite Forall_forall in Hnum. split.
    + destruct Hin as [<-|Hin]; [apply leb_refl, Hnum; left; reflexivity|].
      inversion Hs as [|? ? _ Hall]; subst.
      rewrite Forall_forall in Hall. apply Hall. assumption.
    + destruct (Hlast s Hin) as [Heq|H]; [|assumption].
      rewrite <- Heq. apply leb_refl, Hnum. assumption.
  - intros Hpos Hfin. apply div_ge_one; try assumption.
    destruct (Hlast s_max (or_introl eq_refl)) as [Heq|H]; [|assumption].
    rewrite <- Heq in *. apply leb_refl.
    apply ltb_number_r with 0%float. assumption.
Qed.

(** C3, as the code has it.  When the last singular value is the double 0
    the function still performs the IEEE division: a positive first singular
    value gives the double infinity, which compares greater than the
    threshold of [main]; a first singular value 0 gives NaN, which does not. *)
Theorem singular_condition_number_is_ieee_quotient
    (A : Matrix) (s_max : double) (rest : list double) :
  singularValues A = s_max :: rest ->
  last (singularValues A) s_max = 0%float ->
  ((0 <? s_max)%float = true ->
     compute_condition_number A = Some infinity /\
     (condition_number_threshold <? infinity)%float = true)
  /\ (s_max = 0%float ->
     compute_condition_number A = Some nan /\
     (condition_number_threshold <? nan)%float = false).
Proof.
  intros E Hz.
  rewrite (compute_condition_number_eq A s_max rest E).
  rewrite E in Hz. rewrite Hz. split.
  - intros Hpos. rewrite div_pos_zero by assumption. split; reflexivity.
  - intros ->. split; reflexivity.
Qed.

End ConditionNumber.

Lemma condition_number_is_extreme_ratio_witness :
  @compute_condition_number (Reference.external [] 0) diag_2_3 = Some 1.5%float
  /\ (1 <=? 3 / 2)%float = true.
Proof.
  destruct (@condition_number_is_extreme_ratio (Reference.external [] 0)
              diag_2_3 3%float [2%float] eq_refl) as (H1 & _ & H3).
  - repeat constructor.
  - split; [exact H1 | apply H3; reflexivity].
Defined.

Lemma singular_condition_number_is_ieee_quotient_witness :
  @compute_condition_number (Reference.external [] 0) diag_1_0 = Some infinity
  /\ @compute_condition_number (Reference.external [] 0) zero_1x1 = Some nan.
Proof.
  split.
  - apply (@singular_condition_number_is_ieee_quotient (Reference.external [] 0)
             diag_1_0 1%float [0%float] eq_refl eq_refl).
    reflexivity.
  - apply (@singular_condition_number_is_ieee_quotient (Reference.external [] 0)
             zero_1x1 0%float [] eq_refl eq_refl).
    reflexivity.
Defined.

(** C3, as the specification states it, fails: the only singular value of
    the 1 x 1 zero matrix is 0, the function returns NaN for it, neither an
    error nor the infinite value, and [main]'s test for a poor condition
    number, [cond_number > 1e6], is false for that NaN. *)
Lemma singular_input_not_reported :
  @singularValues (Reference.external [] 0) zero_1x1 = [0%float]
  /\ @compute_condition_number (Reference.external [] 0) zero_1x1 = Some nan
  /\ ~ @reports_singularity (Reference.external [] 0) zero_1x1
  /\ (@condition_number_threshold <? nan)%float = false.
Proof.
  split; [reflexivity|]. split; [reflexivity|]. split; [|reflexivity].
  intros [H|H]; vm_compute in H; [discriminate|].
  assert (E : is_nan nan = is_nan infinity) by congruence.
  vm_compute in E. discriminate.
Qed.

(** * The differences between the two backends (src/main.cpp, lines 218-219) *)

Section Differences.

Lemma column_major_index (r c i j : nat) :
  (i < r)%nat -> (j < c)%nat -> (j * r + i < r * c)%nat.
Proof. intros Hi Hj. nia. Qed.

Lemma column_major_split (r c k : nat) :
  (k < r * c)%nat ->
  (Nat.modulo k r < r)%nat /\ (Nat.div k r < c)%nat /\
  (Nat.div k r * r + Nat.modulo k r)%nat = k.
Proof.
  intros Hk. assert (Hr : r <> 0%nat) by (intros ->; simpl in Hk; lia).
  split; [apply Nat.mod_upper_bound; assumption|]. split.
  - apply Nat.Div0.div_lt_upper_bound. assumption.
  - pose proof (Nat.div_mod_eq k r). lia.
Qed.

(** C6.  For vectors of equal size [n > 0] and well-formed matrices of equal
    nonempty shape whose coefficient-wise differences are numbers,
    [max_diff_values] is [|W_fortran[i] - W_eigen[i]|] for some index [i] and
    is at least that quantity for every index, and [max_diff_vectors] is
    [|V_fortran(i,j) - V_eigen(i,j)|] for some position and at least that
    quantity for every position: the coefficients are paired by index, in
    the order the backends returned them. *)
Theorem max_differences_are_indexwise_maxima
    (W_fortran W_eigen : Vector) (V_fortran V_eigen : Matrix) :
  length W_fortran = length W_eigen ->
  (0 < length W_fortran)%nat ->
  (forall i, (i < length W_fortran)%nat ->
             is_number (nth i W_fortran 0 - nth i W_eigen 0)%float) ->
  wf_matrix V_fortran -> wf_matrix V_eigen ->
  rows V_fortran = rows V_eigen -> cols V_fortran = cols V_eigen ->
  (0 < rows V_fortran)%nat -> (0 < cols V_fortran)%nat ->
  (forall i j, (i < rows V_fortran)%nat -> (j < cols V_fortran)%nat ->
               is_number (coeff V_fortran i j - coeff V_eigen i j)%float) ->
  (exists m,
     max_diff_values W_fortran W_eigen = Some m /\
     (exists i, (i < length W_fortran)%nat /\
                m = PrimFloat.abs (nth i W_fortran 0 - nth i W_eigen 0)%float) /\
     (forall i, (i < length W_fortran)%nat ->
                (PrimFloat.abs (nth i W_fortran 0 - nth i W_eigen 0) <=? m)%float = true))
  /\
  (exists m,
     max_diff_vectors V_fortran V_eigen = Some m /\
     (exists i j, (i < rows V_fortran)%nat /\ (j < cols V_fortran)%nat /\
                  m = PrimFloat.abs (coeff V_fortran i j - coeff V_eigen i j)%float) /\
     (forall i j, (i < rows V_fortran)%nat -> (j < cols V_fortran)%nat ->
                  (PrimFloat.abs (coeff V_fortran i j - coeff V_eigen i j) <=? m)%float = true)).
Proof.
  intros HlW HposW HnumW HwfF HwfE Hrows Hcols Hr Hc HnumV. split.
  - unfold max_diff_values, vector_sub.
    rewrite (proj2 (Nat.eqb_eq _ _) HlW).
    apply max_abs_diff_spec; assumption.
  - unfold max_diff_vectors, matrix_sub, same_shape.
    rewrite (proj2 (Nat.eqb_eq _ _) Hrows), (proj2 (Nat.eqb_eq _ _) Hcols).
    cbn [andb coeffs].
    unfold wf_matrix in HwfF, HwfE.
    assert (Hlen : length (coeffs V_fortran) = length (coeffs V_eigen))
      by (rewrite HwfF, HwfE, Hrows, Hcols; reflexivity).
    destruct (max_abs_diff_spec (coeffs V_fortran) (coeffs V_eigen) Hlen)
      as (m & Hm & (k & Hk & Hat) & Hdom).
    + rewrite HwfF. nia.
    + intros k Hk. rewrite HwfF in Hk.
      destruct (column_major_split _ _ _ Hk) as (Hi & Hj & E).
      specialize (HnumV _ _ Hi Hj). unfold coeff in HnumV.
      rewrite <- Hrows, E in HnumV. assumption.
    + exists m. split; [assumption|]. split.
      * rewrite HwfF in Hk.
        destruct (column_major_split _ _ _ Hk) as (Hi & Hj & E).
        exists (Nat.modulo k (rows V_fortran)), (Nat.div k (rows V_fortran)).
        split; [assumption|]. split; [assumption|].
        unfold coeff. rewrite <- Hrows, E. assumption.
      * intros i j Hi Hj. unfold coeff. rewrite <- Hrows. apply Hdom.
        rewrite HwfF. apply column_major_index; assumption.
Qed.

End Differences.

Lemma max_differences_are_indexwise_maxima_witness :
  max_diff_values [2; 3]%float [3; 2]%float = Some 1%float
  /\ max_diff_vectors diag_2_3 diag_1_0 = Some 3%float.
Proof.
  destruct (max_differences_are_indexwise_maxima
              [2; 3]%float [3; 2]%float diag_2_3 diag_1_0)
    as [(m & Hm & _) (m' & Hm' & _)];
    try reflexivity; try (simpl; lia).
  - intros [|[|i]] Hi; try reflexivity. simpl in Hi. lia.
  - intros [|[|i]] [|[|j]] Hi Hj; try reflexivity; simpl in Hi, Hj; lia.
  - split; reflexivity.
Defined.

(** * The monad *)

Section Monad.

Lemma bind_Val {T U} (m : M T) (k : T -> M U) w v w1 :
  m w = (Val v, w1) -> bind m k w = k v w1.
Proof. intros E. unfold bind. rewrite E. reflexivity. Qed.

Lemma bind_Val_inv {T U} (m : M T) (k : T -> M U) w u w' :
  bind m k w = (Val u, w') ->
  exists v w1, m w = (Val v, w1) /\ k v w1 = (Val u, w').
Proof.
  unfold bind. destruct (m w) as [[v|e|c| |] w1]; intros H; try discriminate.
  exists v, w1. split; [reflexivity|assumption].
Qed.

Lemma eigen_assert_Val_inv {T} (o : option T) w v w' :
  eigen_assert o w = (Val v, w') -> o = Some v /\ w' = w.
Proof.
  destruct o as [x|]; cbn; intros H; inversion H; subst; split; reflexivity.
Qed.

End Monad.

Ltac world_simpl :=
  cbn [cin cin_fail cout cerr outfile rand_count clock_count mats vecs
       store_mat store_vec set_cin fst snd] in *.

Ltac generation_items :=
  repeat first [apply Forall_nil | apply Forall_cons];
  cbn [generation_item]; auto 8.

Ltac run_step H :=
  unfold bind at 1 in H;
  cbn [cout_put outfile_put cerr_put set_mat set_vec get_mat get_vec ret] in H.

(** * The reconstruction check (src/main.cpp, lines 45-55) *)

Section Reconstruction.

Context `{ext : External}.

(** with matching dimensions none of Eigen's assertions fails, whatever the
    coefficients are *)
Lemma check_decomposition_eq (A : Matrix) (W : Vector) (V : Matrix)
    (method : string) (w : world) :
  rows V = cols V -> length W = cols V ->
  rows A = rows V -> cols A = cols V ->
  check_decomposition A W V method w
  = (Val (frobenius_ratio A (reconstruction W V)),
     mkWorld (cin w) (cin_fail w)
       (cout w ++ error_line method (frobenius_ratio A (reconstruction W V)))
       (cerr w)
       (outfile w ++ error_line method (frobenius_ratio A (reconstruction W V)))
       (rand_count w) (clock_count w) (mats w) (vecs w)).
Proof.
  intros Hsq HW HrA HcA.
  unfold check_decomposition, bind, times_diagonal, inverse.
  rewrite (proj2 (Nat.eqb_eq _ _) (eq_sym HW)).
  rewrite (proj2 (Nat.eqb_eq _ _) Hsq).
  cbn [eigen_assert ret]. unfold product. cbn [rows cols scaled_columns].
  rewrite (proj2 (Nat.eqb_eq _ _) (eq_sym Hsq)).
  cbn [eigen_assert ret]. unfold matrix_sub, same_shape. cbn [rows cols].
  rewrite (proj2 (Nat.eqb_eq _ _) HrA), (proj2 (Nat.eqb_eq _ _) HcA).
  reflexivity.
Qed.


(** C10.  For [A], [W], [V] of matching dimension, whatever the
    coefficients of [V] (no hypothesis makes [V] invertible),
    [check_decomposition] completes normally: it throws nothing, returns
    from nothing, fails no assertion, and some double [r] is stored as the
    relative error and written to both streams; nothing else changes. *)
Theorem check_decomposition_never_fails (A : Matrix) (W : Vector)
    (V : Matrix) (method : string) (w : world) :
  rows V = cols V -> length W = cols V ->
  rows A = rows V -> cols A = cols V ->
  exists (r : double) (w' : world),
    check_decomposition A W V method w = (Val r, w')
    /\ cout w' = cout w ++ error_line method r
    /\ outfile w' = outfile w ++ error_line method r
    /\ cerr w' = cerr w /\ mats w' = mats w /\ vecs w' = vecs w.
Proof.
  intros Hsq HW HrA HcA.
  eexists _, _. split.
  - apply check_decomposition_eq; assumption.
  - repeat split.
Qed.

End Reconstruction.


Lemma check_decomposition_never_fails_witness :
  exists (r : double) (w' : world),
    @check_decomposition (Reference.external [] 0)
       diag_1_0 [1; 0]%float diag_1_0 "Eigen Library" (Reference.start "")
    = (Val r, w')
    /\ cout w' = error_line "Eigen Library" r.
Proof.
  destruct (@check_decomposition_never_fails (Reference.external [] 0)
              diag_1_0 [1; 0]%float diag_1_0 "Eigen Library"
              (Reference.start ""))
    as (r & w' & H & Hc & _); try reflexivity.
  exists r, w'. split; [exact H | exact Hc].
Defined.

(** * The wrapper of the Fortran subroutine (src/eigen_interface.cpp) *)

Section Wrapper.

Context `{ext : External}.

Lemma upd_other {T} (f : positive -> T) (l l' : positive) (v : T) :
  l' <> l -> upd f l v l' = f l'.
Proof.
  intros H. unfold upd. destruct (Pos.eqb_spec l' l); [contradiction|reflexivity].
Qed.

(** the outcome of the wrapper is decided by the status reported *)
Lemma eigen_decomposition_outcome (A W V : positive) (w : world) :
  0 <= int_of_Index (Z.of_nat (rows (mats w A))) ->
  fst (eigen_decomposition A W V w)
  = if reported_info A W V w =? 0 then Val tt
    else Throw (runtime_error (failure_message (reported_info A W V w))).
Proof.
  intros Hn. unfold eigen_decomposition, reported_info, failure_message.
  destruct (Z.ltb_spec (int_of_Index (Z.of_nat (rows (mats w A)))) 0); [lia|].
  destruct (fortran_eigen_decomposition _ _ _ _) as [[[a' W'] V'] info].
  cbn [snd]. destruct (info =? 0); reflexivity.
Qed.

(** the wrapper writes to the streams of no world *)
Lemma eigen_decomposition_streams (A W V : positive) (w : world) :
  cout (snd (eigen_decomposition A W V w)) = cout w /\
  cerr (snd (eigen_decomposition A W V w)) = cerr w /\
  outfile (snd (eigen_decomposition A W V w)) = outfile w.
Proof.
  unfold eigen_decomposition.
  destruct (_ <? 0); [repeat split|].
  destruct (fortran_eigen_decomposition _ _ _ _) as [[[a' W'] V'] info].
  destruct (negb (info =? 0)); repeat split.
Qed.

(** the wrapper leaves alone every matrix but [V] *)
Lemma eigen_decomposition_frame (A W V : positive) (w : world) :
  A <> V ->
  mats (snd (eigen_decomposition A W V w)) A = mats w A.
Proof.
  intros HAV. unfold eigen_decomposition.
  destruct (_ <? 0); [reflexivity|].
  destruct (fortran_eigen_decomposition _ _ _ _) as [[[a' W'] V'] info].
  destruct (negb (info =? 0)); cbn [snd mats store_mat store_vec];
    rewrite !upd_other by assumption; reflexivity.
Qed.

(** C8.  Whatever the Fortran subroutine does with the buffers it is
    handed, the matrix bound to [A] is the same after the call of the
    wrapper as before, whether the wrapper returns or throws, provided the
    output matrix [V] is another object than [A]; and in [main], where it
    is, the matrix [A] is the same after lines 148-164 as before, whether
    the decomposition succeeded or the handler ran. *)
Theorem eigen_decomposition_preserves_input (A W V : positive) (w : world) :
  A <> V ->
  mats (snd (eigen_decomposition A W V w)) A = mats w A
  /\ mats (snd (fortran_phase w)) obj_A = mats w obj_A.
Proof.
  intros HAV. split; [apply eigen_decomposition_frame; assumption|].
  unfold fortran_phase, try_catch. unfold bind at 1. cbn [now].
  match goal with |- context [bind (eigen_decomposition ?a ?b ?c) _ ?wn] =>
    pose proof (eigen_decomposition_frame a b c wn ltac:(discriminate)) as HA;
    unfold bind at 1;
    destruct (eigen_decomposition a b c wn) as [[[]|e|code| |] wE]
  end; cbn [snd mats] in HA; exact HA.
Qed.

End Wrapper.

Lemma eigen_decomposition_preserves_input_witness :
  mats (snd (@eigen_decomposition (Reference.external [] 0)
               obj_A obj_W_fortran obj_V_fortran
               (store_mat obj_A diag_2_3 (Reference.start "")))) obj_A
  = diag_2_3.
Proof.
  apply (@eigen_decomposition_preserves_input (Reference.external [] 0)
           obj_A obj_W_fortran obj_V_fortran
           (store_mat obj_A diag_2_3 (Reference.start ""))).
  discriminate.
Defined.

(** * The command line (src/main.cpp, lines 92-99) *)

Section CommandLine.

Context `{ext : External}.

(** X1.  A command line with another number of arguments than one: the
    usage message naming [argv[0]] on the error stream, exit code 1, and
    nothing else touched: no input read, nothing on standard output, the
    results file neither created nor emptied. *)
Lemma wrong_argument_count (fuel : nat) (argv0 : string) (args : list string)
    (w : world) :
  length args <> 1%nat ->
  run fuel (argv0 :: args) w
  = (Exited 1,
     mkWorld (cin w) (cin_fail w) (cout w)
       (cerr w ++ [Str "Usage: "; Str argv0;
                   Str " <use_lapack_in_eigen: 0 or 1>"; Endl])
       (outfile w) (rand_count w) (clock_count w) (mats w) (vecs w)).
Proof.
  intros H. unfold run, main. cbn [length].
  destruct (Nat.eqb_spec (S (length args)) 2) as [E|_]; [lia|].
  reflexivity.
Qed.

(** an argument that holds no integer: the exception of [std::stoi] leaves
    [main] *)
Lemma not_an_integer_terminates (fuel : nat) (argv0 arg : string) (w : world) :
  parse_integer arg = None ->
  run fuel [argv0; arg] w = (Terminated (invalid_argument "stoi"), w).
Proof.
  intros H. unfold run, main. cbn [length Nat.eqb negb nth].
  unfold setup, bind, stoi. rewrite H. reflexivity.
Qed.

(** C9, at the failing input.  With the single argument [abc], [std::stoi]
    throws [std::invalid_argument]; nothing in [main] catches it, so the
    process is terminated instead of exiting with code 1, and the program
    has written nothing, in particular no usage message. *)
Theorem malformed_argument_terminates (fuel : nat) (w : world) :
  run fuel ["prog"; "abc"]%string w
  = (Terminated (invalid_argument "stoi"), w).
Proof. reflexivity. Qed.

End CommandLine.

(** * The regeneration loop (src/main.cpp, lines 106-135) *)

Section Regeneration.

Context `{ext : External}.

Lemma answers_skipws s : answers (skipws s) = answers s.
Proof.
  induction s as [|c s IH]; [reflexivity|].
  cbn [skipws answers]. destruct (isspace c) eqn:E; [assumption|].
  cbn [answers]. rewrite E. reflexivity.
Qed.

Lemma skipws_head s c r : skipws s = String c r -> isspace c = false.
Proof.
  induction s as [|c' s IH]; cbn [skipws]; [discriminate|].
  destruct (isspace c') eqn:E; [assumption|].
  intros H. inversion H; subst. assumption.
Qed.

(** [std::cin >> c] takes the next answer, if there is one *)
Lemma cin_char_spec (w : world) (rest : list ascii) :
  cin_holds w rest ->
  exists w2, cin_char w = (Val (hd_error rest), w2) /\
             cin_holds w2 (tl rest) /\
             rand_count w2 = rand_count w /\ mats w2 = mats w.
Proof.
  intros [Ha Hf]. unfold cin_char.
  destruct (cin_fail w) eqn:F.
  - rewrite (Hf eq_refl). exists w. repeat split; simpl; auto.
    rewrite <- (Hf eq_refl). assumption.
  - destruct (skipws (cin w)) as [|c r] eqn:S.
    + assert (E : rest = [])
        by (rewrite <- Ha, <- answers_skipws, S; reflexivity).
      rewrite E. eexists. split; [reflexivity|]. repeat split.
    + assert (E : rest = c :: answers r).
      { rewrite <- Ha, <- answers_skipws, S. cbn [answers].
        rewrite (skipws_head _ _ _ S). reflexivity. }
      rewrite E. eexists. split; [reflexivity|]. repeat split.
      cbn. discriminate.
Qed.

Lemma last_cons {T} (c : T) (t : list T) (d : T) : last (c :: t) d = last t c.
Proof.
  revert c d. induction t as [|x t IH]; intros c d; [reflexivity|].
  change (last (c :: x :: t) d) with (last (x :: t) d).
  rewrite (IH x d), (IH x c). reflexivity.
Qed.

Lemma pending_next (current : ascii) (rest : list ascii) (k : nat) :
  pending (hd current rest) (tl rest) k = pending current rest (S k).
Proof.
  unfold pending. destruct rest as [|c t]; cbn [hd tl].
  - destruct k as [|[|k]]; reflexivity.
  - cbn [nth]. rewrite (last_cons c t current). reflexivity.
Qed.

Lemma drawn_next (w w2 : world) (size : Z) (k : nat) :
  rand_count w2 = (rand_count w + Z.to_nat size * Z.to_nat size)%nat ->
  drawn w2 size k = drawn w size (S k).
Proof.
  intros E. unfold drawn. cbv zeta. rewrite E. do 3 f_equal. lia.
Qed.

Lemma size_not_negative (size : Z) :
  0 <= size -> (size <? 0) || (size <? 0) = false.
Proof. intros H. destruct (Z.ltb_spec size 0); [lia|reflexivity]. Qed.

Lemma drawn_0 (w : world) (size : Z) :
  drawn w size 0
  = mkMatrix (Z.to_nat size) (Z.to_nat size)
      (map random_coeff
           (seq (rand_count w) (Z.to_nat size * Z.to_nat size))).
Proof. unfold drawn. cbv zeta. rewrite Nat.mul_0_l, Nat.add_0_r. reflexivity. Qed.








Lemma answer_pending (c0 : ascii) (t : list ascii) (k : nat) :
  answer (c0 :: t) k = Some (pending c0 t k).
Proof. unfold answer, pending. rewrite last_cons. reflexivity. Qed.

Lemma accepts_inv (a : list ascii) (k : nat) :
  accepts a k ->
  exists c0 t, a = c0 :: t /\ is_yes (pending c0 t k) = true.
Proof.
  intros (c & Hc & Hy). destruct a as [|c0 t]; [discriminate|].
  rewrite answer_pending in Hc. inversion Hc; subst. eauto.
Qed.

Lemma declines_inv (a : list ascii) (k : nat) :
  declines a k ->
  exists c0 t, a = c0 :: t /\ is_yes (pending c0 t k) = false.
Proof.
  intros (c & Hc & Hy). destruct a as [|c0 t]; [discriminate|].
  rewrite answer_pending in Hc. inversion Hc; subst. eauto.
Qed.

End Regeneration.

Section RegenerationClaim.

Context `{ext : External}.


End RegenerationClaim.


(** * What the generation phase leaves behind *)

Section GenerationFrame.

Context `{ext : External}.

Lemma generation_only_refl (w : world) : generation_only w w.
Proof.
  repeat split; try (exists []; split; [symmetry; apply app_nil_r|constructor]).
Qed.

Lemma generation_only_trans (w1 w2 w3 : world) :
  generation_only w1 w2 -> generation_only w2 w3 -> generation_only w1 w3.
Proof.
  intros ((l1 & E1 & F1) & (m1 & G1 & H1) & C1) ((l2 & E2 & F2) & (m2 & G2 & H2) & C2).
  split; [|split].
  - exists (l1 ++ l2). rewrite E2, E1, app_assoc. split; [reflexivity|].
    apply Forall_app. split; assumption.
  - exists (m1 ++ m2). rewrite G2, G1, app_assoc. split; [reflexivity|].
    apply Forall_app. split; assumption.
  - congruence.
Qed.

(** a step that appends generation items to the two output streams *)
Lemma generation_only_step (w w1 : world) (l m : ostream) :
  cout w1 = cout w ++ l -> outfile w1 = outfile w ++ m -> cerr w1 = cerr w ->
  Forall generation_item l -> Forall generation_item m ->
  generation_only w w1.
Proof. intros. split; [|split]; eauto. Qed.

Lemma Random_Val_inv (r c : Z) (w : world) (A : Matrix) (w1 : world) :
  Random r c w = (Val A, w1) ->
  0 <= r /\ 0 <= c /\ rows A = Z.to_nat r /\ cols A = Z.to_nat c /\
  cout w1 = cout w /\ outfile w1 = outfile w /\ cerr w1 = cerr w /\
  cin w1 = cin w /\ cin_fail w1 = cin_fail w /\ mats w1 = mats w.
Proof.
  unfold Random.
  destruct (Z.ltb_spec r 0) as [Hr|Hr], (Z.ltb_spec c 0) as [Hc|Hc];
    cbn [orb]; intros E; try discriminate.
  inversion E; subst. repeat split; assumption.
Qed.

Lemma cin_char_frame (w : world) :
  exists o w1, cin_char w = (Val o, w1) /\
    cout w1 = cout w /\ outfile w1 = outfile w /\ cerr w1 = cerr w /\
    mats w1 = mats w.
Proof.
  unfold cin_char. destruct (cin_fail w); [eexists _, _; repeat split|].
  destruct (skipws (cin w)); eexists _, _; repeat split.
Qed.

Lemma sized_set (size : Z) (A : Matrix) (w : world) :
  rows A = Z.to_nat size -> cols A = Z.to_nat size ->
  sized size (store_mat obj_A A w).
Proof. intros Hr Hc. split; assumption. Qed.

(** the loop appends prompts and condition numbers and keeps [A] of the
    size asked for *)
Lemma regenerate_loop_frame (fuel : nat) :
  forall (size : Z) (reg : ascii) (w w1 : world),
  regenerate_loop fuel size reg w = (Val tt, w1) ->
  generation_only w w1 /\ (sized size w -> sized size w1).
Proof.
  induction fuel as [|f IH]; intros size reg w w1 H;
    cbn [regenerate_loop] in H; destruct (is_yes reg).
  - discriminate.
  - inversion H; subst. split; [apply generation_only_refl|auto].
  - apply bind_Val_inv in H. destruct H as (A & wa & HR & H).
    apply Random_Val_inv in HR.
    destruct HR as (_ & _ & Hr & Hc & Hco & Hof & Hce & _ & _ & Hm).
    run_step H.
    apply bind_Val_inv in H. destruct H as (c & wb & Hcn & H).
    apply eigen_assert_Val_inv in Hcn. destruct Hcn as [_ ->].
    run_step H. run_step H.
    destruct (c <=? condition_number_threshold)%float.
    + inversion H; subst; clear H. split.
      * eapply generation_only_step; world_simpl;
          [rewrite Hco; reflexivity | rewrite Hof; reflexivity | assumption | |];
          generation_items.
      * intros _. split; assumption.
    + run_step H.
      match type of H with context [bind cin_char _ ?wq] =>
        destruct (cin_char_frame wq) as (o & wc & Ec & Hco' & Hof' & Hce' & Hm')
      end.
      unfold bind at 1 in H. rewrite Ec in H.
      apply IH in H. destruct H as [Hg Hs]. split.
      * eapply generation_only_trans; [|exact Hg].
        world_simpl.
        eapply generation_only_step;
          [rewrite Hco', Hco, <- app_assoc; reflexivity
          |rewrite Hof', Hof; reflexivity
          |rewrite Hce'; assumption | |];
          generation_items.
      * intros _. apply Hs. unfold sized. rewrite Hm'. split; assumption.
  - inversion H; subst. split; [apply generation_only_refl|auto].
Qed.

Lemma generate_frame (fuel : nat) (size : Z) (w w1 : world) :
  generate fuel size w = (Val tt, w1) ->
  generation_only w w1 /\ sized size w1 /\ 0 <= size.
Proof.
  unfold generate. intros H.
  apply bind_Val_inv in H. destruct H as (A & wa & HR & H).
  apply Random_Val_inv in HR.
  destruct HR as (Hsz & _ & Hr & Hc & Hco & Hof & Hce & _ & _ & Hm).
  run_step H.
  apply bind_Val_inv in H. destruct H as (c & wb & Hcn & H).
  apply eigen_assert_Val_inv in Hcn. destruct Hcn as [_ ->].
  run_step H. run_step H.
  destruct (condition_number_threshold <? c)%float.
  - run_step H.
    match type of H with context [bind cin_char _ ?wq] =>
      destruct (cin_char_frame wq) as (o & wc & Ec & Hco' & Hof' & Hce' & Hm')
    end.
    unfold bind at 1 in H. rewrite Ec in H.
    destruct o as [reg|]; [|discriminate].
    apply regenerate_loop_frame in H. destruct H as [Hg Hs].
    split; [|split; [|assumption]].
    + eapply generation_only_trans; [|exact Hg].
      world_simpl.
      eapply generation_only_step;
        [rewrite Hco', Hco, <- app_assoc; reflexivity
        |rewrite Hof', Hof; reflexivity
        |rewrite Hce'; assumption | |];
        generation_items.
    + apply Hs. unfold sized. rewrite Hm'. split; assumption.
  - inversion H; subst; clear H. split; [|split; [split; assumption|assumption]].
    eapply generation_only_step; world_simpl;
      [rewrite Hco; reflexivity | rewrite Hof; reflexivity | assumption | |];
      generation_items.
Qed.

End GenerationFrame.

(** * A failing Fortran subroutine (eigen_interface.cpp 33-38, main.cpp 148-166) *)

Section FortranFailure.

Context `{ext : External}.

Lemma cin_int_Val_inv (w : world) (v : Z) (w1 : world) :
  cin_int w = (Val v, w1) ->
  INT_MIN <= v <= INT_MAX /\
  cout w1 = cout w /\ outfile w1 = outfile w /\ cerr w1 = cerr w.
Proof.
  unfold cin_int. destruct (cin_fail w); [discriminate|].
  destruct (skipws (cin w)) as [|c s]; [discriminate|].
  destruct (parse_integer (String c s)) as [[x rest]|].
  - destruct (Z.ltb_spec x INT_MIN); [|destruct (Z.ltb_spec INT_MAX x)];
      intros E; inversion E; subst; repeat split;
      unfold INT_MIN, INT_MAX in *; lia.
  - intros E; inversion E; subst. repeat split; unfold INT_MIN, INT_MAX; lia.
Qed.

Lemma stoi_Val_inv (str : string) (w : world) (v : Z) (w1 : world) :
  stoi str w = (Val v, w1) -> w1 = w.
Proof.
  unfold stoi. destruct (parse_integer str) as [[x rest]|]; [|discriminate].
  destruct ((x <? INT_MIN) || (INT_MAX <? x)); intros E; inversion E; reflexivity.
Qed.

(** what [main] has done when the matrix has been chosen *)
Lemma setup_frame (fuel : nat) (arg : string) (w w1 : world)
    (flag : bool) (size : Z) :
  setup fuel arg w = (Val (flag, size), w1) ->
  cerr w1 = cerr w /\
  (exists l, cout w1 = cout w ++ l /\ Forall generation_item l) /\
  Forall generation_item (outfile w1) /\
  sized size w1 /\ 0 <= size <= INT_MAX.
Proof.
  unfold setup. intros H.
  apply bind_Val_inv in H. destruct H as (n & w0 & Hs & H).
  apply stoi_Val_inv in Hs. subst w0.
  unfold bind at 1 in H. cbn [outfile_open] in H. run_step H.
  apply bind_Val_inv in H. destruct H as (sz & wi & Hi & H).
  apply cin_int_Val_inv in Hi. world_simpl.
  destruct Hi as (Hrange & Hco & Hof & Hce).
  apply bind_Val_inv in H. destruct H as ([] & wg & Hg & H).
  inversion H; subst; clear H.
  apply generate_frame in Hg.
  destruct Hg as (((l & El & Fl) & (m & Em & Fm) & Ec) & Hsized & Hpos).
  split; [congruence|]. split; [|split; [|split; [assumption|lia]]].
  - exists ([Str "Enter the size of the matrix: "] ++ l).
    rewrite El, Hco, <- app_assoc. split; [reflexivity|].
    apply Forall_app. split; [generation_items|assumption].
  - rewrite Em, Hof. assumption.
Qed.

Lemma append_inj_l (p s1 s2 : string) :
  (p ++ s1)%string = (p ++ s2)%string -> s1 = s2.
Proof.
  induction p as [|c p IH]; cbn; intros H; [assumption|].
  inversion H. apply IH. assumption.
Qed.

(** [std::to_string] is read back by the decimal parser of the library *)
Lemma to_string_readable (i : Z) :
  option_map Z.of_int (NilZero.int_of_string (to_string i)) = Some i.
Proof.
  unfold to_string.
  destruct (Z.to_int i) as [u|u] eqn:E.
  - destruct u as [|u|u|u|u|u|u|u|u|u|u];
      [rewrite NilZero.isi_posnil; cbn;
       rewrite <- (DecimalZ.of_to i), E; reflexivity | ..];
      (rewrite NilZero.isi by discriminate; cbn [option_map];
       rewrite <- E, DecimalZ.of_to; reflexivity).
  - destruct u as [|u|u|u|u|u|u|u|u|u|u];
      [rewrite NilZero.isi_negnil; cbn;
       rewrite <- (DecimalZ.of_to i), E; reflexivity | ..];
      (rewrite NilZero.isi by discriminate; cbn [option_map];
       rewrite <- E, DecimalZ.of_to; reflexivity).
Qed.

(** the message names the status and no other *)
Lemma failure_message_inj (i j : Z) :
  failure_message i = failure_message j -> i = j.
Proof.
  unfold failure_message. intros H. apply append_inj_l in H.
  pose proof (to_string_readable i) as Hi. rewrite H in Hi.
  rewrite to_string_readable in Hi. congruence.
Qed.

Lemma int_of_Index_small (n : nat) :
  Z.of_nat n <= INT_MAX -> int_of_Index (Z.of_nat n) = Z.of_nat n.
Proof.
  unfold INT_MAX, int_of_Index. intros H.
  change (2 ^ 31) with 2147483648. change (2 ^ 32) with 4294967296.
  rewrite Z.mod_small by lia. lia.
Qed.

End FortranFailure.

Section FortranFailureClaim.

Context `{ext : External}.

Lemma declare_results_eq (size : Z) (w : world) :
  declare_results size w = (Val tt, snd (declare_results size w))
  /\ cout (snd (declare_results size w)) = cout w
  /\ cerr (snd (declare_results size w)) = cerr w
  /\ outfile (snd (declare_results size w)) = outfile w
  /\ mats (snd (declare_results size w)) obj_A = mats w obj_A.
Proof. repeat split. Qed.

(** the outcome of lines 148-164 when the subroutine reports a failure *)
Lemma fortran_phase_failure (w : world) :
  0 <= int_of_Index (Z.of_nat (rows (mats w obj_A))) ->
  reported_info obj_A obj_W_fortran obj_V_fortran w <> 0 ->
  exists w',
    fortran_phase w = (Return 1, w')
    /\ cerr w' = cerr w ++
         [Str "Error in Fortran LAPACK eigenvalue decomposition: ";
          Str (failure_message
                 (reported_info obj_A obj_W_fortran obj_V_fortran w));
          Endl]
    /\ cout w' = cout w /\ outfile w' = outfile w.
Proof.
  intros Hn Hinfo. unfold fortran_phase, try_catch.
  unfold bind at 1. cbn [now].
  match goal with |- context [bind (eigen_decomposition ?a ?b ?c) _ ?wn] =>
    pose proof (eigen_decomposition_outcome a b c wn Hn) as Ho;
    pose proof (eigen_decomposition_streams a b c wn) as (Hco & Hce & Hof);
    change (reported_info a b c wn) with (reported_info a b c w) in Ho;
    unfold bind at 1;
    destruct (eigen_decomposition a b c wn) as [o wE]
  end.
  cbn [fst snd] in *.
  destruct (Z.eqb_spec (reported_info obj_A obj_W_fortran obj_V_fortran w) 0)
    as [E|_]; [contradiction|].
  subst o. unfold bind at 1. cbn [cerr_put].
  eexists. split; [reflexivity|]. world_simpl.
  rewrite Hco, Hce, Hof. repeat split.
Qed.

(** C2.  (1) With the status [info] the Fortran subroutine reports, the
    wrapper returns normally when [info = 0] and throws a
    [std::runtime_error] whose message is [failure_message info] when
    [info <> 0]; (2) that message names no other status; (3) when [main] has
    chosen its matrix and the subroutine then reports [info <> 0], the
    process exits with code 1, the error stream has received one line with
    that message, and everything written to standard output and to the
    results file is a prompt or a condition number: no reconstruction
    error, no maximum difference, no summary. *)
Theorem nonzero_status_ends_run (fuel : nat) (argv0 arg : string)
    (w w1 : world) (flag : bool) (size : Z) (A W V : positive) (w0 : world) :
  (0 <= int_of_Index (Z.of_nat (rows (mats w0 A))) ->
   (reported_info A W V w0 = 0 ->
      fst (eigen_decomposition A W V w0) = Val tt) /\
   (reported_info A W V w0 <> 0 ->
      fst (eigen_decomposition A W V w0)
      = Throw (runtime_error (failure_message (reported_info A W V w0)))))
  /\
  (forall i j, failure_message i = failure_message j -> i = j)
  /\
  (setup fuel arg w = (Val (flag, size), w1) ->
   reported_info obj_A obj_W_fortran obj_V_fortran
     (snd (declare_results size w1)) <> 0 ->
   exists w',
     run fuel [argv0; arg] w = (Exited 1, w')
     /\ cerr w' = cerr w ++
          [Str "Error in Fortran LAPACK eigenvalue decomposition: ";
           Str (failure_message
                  (reported_info obj_A obj_W_fortran obj_V_fortran
                     (snd (declare_results size w1))));
           Endl]
     /\ (exists l, cout w' = cout w ++ l /\ Forall generation_item l)
     /\ Forall generation_item (outfile w')).
Proof.
  split; [|split].
  - intros Hn. rewrite (eigen_decomposition_outcome A W V w0 Hn). split.
    + intros ->. reflexivity.
    + intros Hne. destruct (Z.eqb_spec (reported_info A W V w0) 0);
        [contradiction|reflexivity].
  - exact failure_message_inj.
  - intros Hsetup Hinfo.
    destruct (setup_frame fuel arg w w1 flag size Hsetup)
      as (Hce & (l & Hco & Hl) & Hof & [Hrows _] & Hsz).
    destruct (declare_results_eq size w1) as (Ed & Dco & Dce & Dof & DA).
    destruct (fortran_phase_failure (snd (declare_results size w1)))
      as (w' & Ef & Fce & Fco & Fof).
    { rewrite DA, Hrows, int_of_Index_small; rewrite Z2Nat.id; lia. }
    { assumption. }
    exists w'. split; [|split; [|split]].
    + unfold run, main. cbn [length Nat.eqb negb nth].
      rewrite (bind_Val _ _ _ _ _ Hsetup). cbn [fst snd].
      unfold compare. rewrite (bind_Val _ _ _ _ _ Ed).
      unfold bind at 1. rewrite Ef. reflexivity.
    + rewrite Fce, Dce, Hce. reflexivity.
    + exists l. rewrite Fco, Dco, Hco. split; [reflexivity|assumption].
    + rewrite Fof, Dof. assumption.
Qed.

End FortranFailureClaim.

Lemma nonzero_status_ends_run_witness :
  exists w',
    @run (Reference.external [2; 0; 0; 3]%float 3) 0 ["prog"; "1"]%string
         (Reference.start "2")
    = (Exited 1, w')
    /\ cerr w' =
       [Str "Error in Fortran LAPACK eigenvalue decomposition: ";
        Str "LAPACK eigen_decomposition failed with info code: 3"; Endl].
Proof.
  destruct (@nonzero_status_ends_run (Reference.external [2; 0; 0; 3]%float 3)
              0 "prog" "1"
              (Reference.start "2")
              (snd (@setup (Reference.external [2; 0; 0; 3]%float 3)
                      0 "1" (Reference.start "2")))
              true 2 obj_A obj_W_fortran obj_V_fortran (Reference.start "2"))
    as (_ & _ & H).
  destruct H as (w' & E & Hce & _).
  - reflexivity.
  - vm_compute. discriminate.
  - exists w'. split; [exact E | exact Hce].
Defined.

(** * The mode flag of the library backend (src/main.cpp, lines 169-214) *)

Section ModeFlag.

Context `{ext : External}.

Lemma same_but_labels_refl (w : world) : same_but_labels w w.
Proof. repeat split. Qed.

Lemma agree_bind {T U} (m m' : M T) (k k' : T -> M U) :
  agree m m' -> (forall v, agree (k v) (k' v)) ->
  agree (bind m k) (bind m' k').
Proof.
  intros Hm Hk w w' R. unfold bind.
  destruct (Hm w w' R) as [E R'].
  destruct (m w) as [o w1], (m' w') as [o' w1']. cbn [fst snd] in *.
  subst o'. destruct o; cbn [fst snd]; try (split; [reflexivity|assumption]).
  apply Hk. assumption.
Qed.

Lemma agree_try_catch {T} (m m' : M T) (h h' : exn -> M T) :
  agree m m' -> (forall e, agree (h e) (h' e)) ->
  agree (try_catch m h) (try_catch m' h').
Proof.
  intros Hm Hh w w' R. unfold try_catch.
  destruct (Hm w w' R) as [E R'].
  destruct (m w) as [o w1], (m' w') as [o' w1']. cbn [fst snd] in *.
  subst o'. destruct o; cbn [fst snd]; try (split; [reflexivity|assumption]).
  apply Hh. assumption.
Qed.

Ltac agree_primitive :=
  let w := fresh "w" in
  let w' := fresh "w'" in
  intros w w' (Hcin & Hf & Hco & Hce & Hof & Hr & Hcl & Hm & Hv);
  unfold same_but_labels; cbn; world_simpl;
  rewrite ?map_app, ?Hcin, ?Hf, ?Hco, ?Hce, ?Hof, ?Hr, ?Hcl, ?Hm, ?Hv.

Lemma agree_ret {T} (v : T) : agree (ret v) (ret v).
Proof. agree_primitive. repeat split; assumption. Qed.

Lemma agree_return {T} (c : Z) : agree (@return_ T c) (return_ c).
Proof. agree_primitive. repeat split; assumption. Qed.

Lemma agree_throw {T} (e : exn) : agree (@throw T e) (throw e).
Proof. agree_primitive. repeat split; assumption. Qed.

Lemma agree_undef {T} : agree (@undef T) undef.
Proof. agree_primitive. repeat split; assumption. Qed.

Lemma agree_eigen_assert {T} (o : option T) :
  agree (eigen_assert o) (eigen_assert o).
Proof. destruct o; [apply agree_ret|apply agree_undef]. Qed.

Lemma agree_cout_put (l l' : ostream) :
  map erase_mode l = map erase_mode l' -> agree (cout_put l) (cout_put l').
Proof. intros E. agree_primitive. rewrite E. repeat split; assumption. Qed.

Lemma agree_outfile_put (l l' : ostream) :
  map erase_mode l = map erase_mode l' ->
  agree (outfile_put l) (outfile_put l').
Proof. intros E. agree_primitive. rewrite E. repeat split; assumption. Qed.

Lemma agree_cerr_put (l : ostream) : agree (cerr_put l) (cerr_put l).
Proof. agree_primitive. repeat split; assumption. Qed.

Lemma agree_now : agree now now.
Proof. agree_primitive. repeat split; assumption. Qed.

Lemma agree_get_mat (l : positive) : agree (get_mat l) (get_mat l).
Proof. agree_primitive. repeat split; assumption. Qed.

Lemma agree_get_vec (l : positive) : agree (get_vec l) (get_vec l).
Proof. agree_primitive. repeat split; assumption. Qed.

Lemma agree_set_mat (l : positive) (A : Matrix) :
  agree (set_mat l A) (set_mat l A).
Proof. agree_primitive. repeat split; assumption. Qed.

Lemma agree_set_vec (l : positive) (v : Vector) :
  agree (set_vec l v) (set_vec l v).
Proof. agree_primitive. repeat split; assumption. Qed.

Lemma agree_eigen_decomposition (A W V : positive) :
  agree (eigen_decomposition A W V) (eigen_decomposition A W V).
Proof.
  intros w w' (Hcin & Hf & Hco & Hce & Hof & Hr & Hcl & Hm & Hv).
  unfold eigen_decomposition. world_simpl. rewrite Hm, Hv.
  destruct (_ <? 0); [repeat split; assumption|].
  destruct (fortran_eigen_decomposition _ _ _ _) as [[[a' W'] V'] info].
  destruct (negb (info =? 0)); cbn [fst snd]; (split; [reflexivity|]);
    unfold same_but_labels; world_simpl; rewrite Hm, Hv;
    repeat split; assumption.
Qed.

Lemma agree_construct_solver (A : Matrix) :
  agree (construct_solver A) (construct_solver A).
Proof.
  unfold construct_solver. destruct (Nat.eqb (rows A) (cols A));
    [|apply agree_undef].
  destruct (EigenSolver A); [apply agree_throw|apply agree_ret].
Qed.

Ltac agree_steps :=
  repeat first
    [ apply agree_bind; [|intros ?]
    | apply agree_try_catch; [|intros ?]
    | apply agree_ret | apply agree_return | apply agree_throw
    | apply agree_undef | apply agree_eigen_assert
    | apply agree_cerr_put | apply agree_now
    | apply agree_get_mat | apply agree_get_vec
    | apply agree_set_mat | apply agree_set_vec
    | apply agree_eigen_decomposition | apply agree_construct_solver
    | apply agree_cout_put; reflexivity
    | apply agree_outfile_put; reflexivity ].

Lemma agree_check_decomposition (A : Matrix) (W : Vector) (V : Matrix)
    (method : string) :
  agree (check_decomposition A W V method) (check_decomposition A W V method).
Proof. unfold check_decomposition. agree_steps. Qed.

Lemma agree_fortran_phase : agree fortran_phase fortran_phase.
Proof. unfold fortran_phase. agree_steps. Qed.

Lemma agree_declare_results (size : Z) :
  agree (declare_results size) (declare_results size).
Proof. unfold declare_results. agree_steps. Qed.

(** the two branches differ in the label they print *)
Lemma agree_eigen_branches : agree eigen_with_lapack eigen_without_lapack.
Proof. unfold eigen_with_lapack, eigen_without_lapack. agree_steps. Qed.

Lemma summary_erased (size : Z) (d1 d2 m1 m2 r1 r2 : double) :
  map erase_mode (summary true size d1 d2 m1 m2 r1 r2)
  = map erase_mode (summary false size d1 d2 m1 m2 r1 r2).
Proof. unfold summary. destruct (d1 <? d2)%float; reflexivity. Qed.

Lemma agree_compare (size : Z) :
  agree (compare true size) (compare false size).
Proof.
  unfold compare, eigen_phase.
  apply agree_bind; [apply agree_declare_results|intros _].
  apply agree_bind; [apply agree_fortran_phase|intros duration_fortran].
  apply agree_bind; [apply agree_get_mat|intros A].
  apply agree_bind; [apply agree_get_vec|intros W_fortran].
  apply agree_bind; [apply agree_get_mat|intros V_fortran].
  apply agree_bind; [apply agree_check_decomposition|intros e_fortran].
  apply agree_bind; [apply agree_eigen_branches|intros duration_eigen].
  apply agree_bind; [apply agree_get_mat|intros A'].
  apply agree_bind; [apply agree_get_vec|intros W_eigen].
  apply agree_bind; [apply agree_get_mat|intros V_eigen].
  apply agree_bind; [apply agree_check_decomposition|intros e_eigen].
  apply agree_bind; [apply agree_get_vec|intros W_f].
  apply agree_bind; [apply agree_get_vec|intros W_e].
  apply agree_bind; [apply agree_get_mat|intros V_f].
  apply agree_bind; [apply agree_get_mat|intros V_e].
  apply agree_bind; [apply agree_eigen_assert|intros max_values].
  apply agree_bind; [apply agree_eigen_assert|intros max_vectors].
  apply agree_bind; [apply agree_cout_put, summary_erased|intros _].
  apply agree_bind; [apply agree_outfile_put, summary_erased|intros _].
  apply agree_return.
Qed.

(** C4.  From any world, the branch for [use_lapack_in_eigen = true] and the
    branch for [false] end alike (same duration returned, or same exception
    handled), leave the same [W_eigen] and [V_eigen] and the same objects
    altogether; and the whole comparison run with the flag [true] and with
    the flag [false] ends with the same outcome in worlds that are equal
    except that the two output streams spell the mode differently. *)
Theorem library_backend_ignores_mode_flag (size : Z) (w : world) :
  (fst (eigen_with_lapack w) = fst (eigen_without_lapack w)
   /\ vecs (snd (eigen_with_lapack w)) obj_W_eigen
      = vecs (snd (eigen_without_lapack w)) obj_W_eigen
   /\ mats (snd (eigen_with_lapack w)) obj_V_eigen
      = mats (snd (eigen_without_lapack w)) obj_V_eigen
   /\ mats (snd (eigen_with_lapack w)) = mats (snd (eigen_without_lapack w))
   /\ vecs (snd (eigen_with_lapack w)) = vecs (snd (eigen_without_lapack w)))
  /\
  (fst (compare true size w) = fst (compare false size w)
   /\ same_but_labels (snd (compare true size w)) (snd (compare false size w))).
Proof.
  split.
  - destruct (agree_eigen_branches w w (same_but_labels_refl w))
      as (E & _ & _ & _ & _ & _ & _ & _ & Hm & Hv).
    rewrite Hm, Hv. repeat split. assumption.
  - apply agree_compare. apply same_but_labels_refl.
Qed.

End ModeFlag.

(** * Runs on the scenarios of the specification *)

Section Scenarios.

(** scenario A: the matrix [[2,0],[0,3]] *)
Example scenario_A :
  fst (@run (Reference.external [2; 0; 0; 3]%float 0) 0
         ["prog"; "0"]%string (Reference.start "2"))
  = Exited 0
  /\ firstn 3 (outfile (snd (@run (Reference.external [2; 0; 0; 3]%float 0) 0
                               ["prog"; "0"]%string (Reference.start "2"))))
     = [Str "Condition number of the matrix: "; Dbl 1.5%float; Endl]
  /\ vecs (snd (@run (Reference.external [2; 0; 0; 3]%float 0) 0
                  ["prog"; "0"]%string (Reference.start "2"))) obj_W_fortran
     = [2; 3]%float
  /\ @check_decomposition (Reference.external [] 0) diag_2_3 [2; 3]%float
       (mkMatrix 2 2 [1; 0; 0; 1]%float) "Eigen Library" (Reference.start "")
     = (Val 0%float,
        mkWorld "" false (error_line "Eigen Library" 0%float) []
          (error_line "Eigen Library" 0%float) 0 0
          (mats (Reference.start "")) (vecs (Reference.start ""))).
Proof. repeat split. Qed.

(** scenario B: no argument *)
Example scenario_B :
  @run (Reference.external [] 0) 0 ["prog"]%string (Reference.start "")
  = (Exited 1,
     mkWorld "" false []
       [Str "Usage: "; Str "prog"; Str " <use_lapack_in_eigen: 0 or 1>"; Endl]
       [] 0 0 (mats (Reference.start "")) (vecs (Reference.start ""))).
Proof. reflexivity. Qed.

(** scenario C: the subroutine reports the status 3 *)
Example scenario_C :
  fst (@run (Reference.external [2; 0; 0; 3]%float 3) 0
         ["prog"; "1"]%string (Reference.start "2"))
  = Exited 1
  /\ outfile (snd (@run (Reference.external [2; 0; 0; 3]%float 3) 0
                     ["prog"; "1"]%string (Reference.start "2")))
     = [Str "Condition number of the matrix: "; Dbl 1.5%float; Endl].
Proof. repeat split. Qed.

(** scenario D: the 1 x 1 matrix [[5]] *)
Example scenario_D :
  fst (@run (Reference.external [5]%float 0) 0
         ["prog"; "0"]%string (Reference.start "1"))
  = Exited 0
  /\ vecs (snd (@run (Reference.external [5]%float 0) 0
                  ["prog"; "0"]%string (Reference.start "1"))) obj_W_eigen
     = [5]%float
  /\ coeffs (mats (snd (@run (Reference.external [5]%float 0) 0
                          ["prog"; "0"]%string (Reference.start "1")))
               obj_V_eigen)
     = [1]%float.
Proof. repeat split. Qed.

End Scenarios.

(** * Further properties of the code *)

(** ** More facts about binary64 *)

Lemma SFdiv_self m e :
  bounded prec emax m e = true ->
  SFdiv prec emax (S754_finite false m e) (S754_finite false m e) = SF_one.
Proof.
  intros B. apply bounded_inv in B. destruct B as [C U].
  unfold SFdiv, SFdiv_core_binary. cbn [Zdigits2 xorb].
  replace (Z.pos (digits2_pos m) + e - (Z.pos (digits2_pos m) + e)) with 0 by lia.
  rewrite Z.sub_diag.
  change (Z.min (fexp prec emax 0) 0) with (-53).
  change (0 - -53) with 53.
  rewrite Z.shiftl_mul_pow2 by lia.
  assert (E : Z.div_eucl (Z.pos m * 2 ^ 53) (Z.pos m) = (2 ^ 53, 0)).
  { pose proof (Z.div_eucl_eq (Z.pos m * 2 ^ 53) (Z.pos m) ltac:(lia)) as Hd.
    pose proof (Z.mod_pos_bound (Z.pos m * 2 ^ 53) (Z.pos m) ltac:(lia)) as Hm.
    unfold Z.modulo in Hm.
    destruct (Z.div_eucl (Z.pos m * 2 ^ 53) (Z.pos m)) as [q r].
    assert (q = 2 ^ 53) by nia. assert (r = 0) by nia. subst. reflexivity. }
  rewrite E.
  assert (L : new_location (Z.pos m) 0 = loc_Exact).
  { unfold new_location, new_location_even, new_location_odd.
    destruct (Z.even (Z.pos m)); reflexivity. }
  rewrite L. reflexivity.
Qed.

Lemma div_self x :
  (0 <? x)%float = true -> (x <? infinity)%float = true -> (x / x)%float = 1%float.
Proof.
  rewrite !FloatAxioms.ltb_spec.
  change (Prim2SF 0) with (S754_zero false).
  change (Prim2SF infinity) with (S754_infinity false).
  intros H0 Hi. apply Prim2SF_inj. rewrite FloatAxioms.div_spec.
  change (Prim2SF 1) with SF_one.
  pose proof (Prim2SF_valid x) as V.
  destruct (Prim2SF x) as [s|s| |s m e]; try destruct s;
    cbn in H0, Hi; try discriminate.
  apply SFdiv_self. exact V.
Qed.

Lemma SFsub_self x :
  SFsub prec emax x x <> S754_nan -> SFsub prec emax x x = S754_zero false.
Proof.
  destruct x as [[]|[]| |s m e]; cbn [SFsub]; intros H; try reflexivity;
    try congruence.
  unfold shl_align. rewrite Z.min_id, !Z.sub_diag. cbn [fst].
  rewrite ?Z.sub_diag. reflexivity.
Qed.

Lemma sub_self x : is_number (x - x)%float -> (x - x)%float = 0%float.
Proof.
  intros H. apply number_not_nan in H. rewrite FloatAxioms.sub_spec in H.
  apply Prim2SF_inj. rewrite FloatAxioms.sub_spec.
  change (Prim2SF 0) with (S754_zero false).
  apply SFsub_self. exact H.
Qed.

Lemma SFabs_binary_round_aux s s' m e l :
  SFabs (binary_round_aux prec emax s m e l)
  = SFabs (binary_round_aux prec emax s' m e l).
Proof.
  unfold binary_round_aux.
  destruct (shr_fexp prec emax m e l) as [mrs' e'].
  destruct (shr_fexp prec emax _ e' loc_Exact) as [mrs'' e''].
  destruct (shr_m mrs''); try reflexivity.
  destruct (e'' <=? emax - prec); reflexivity.
Qed.

Lemma SFabs_binary_normalize_opp z e :
  SFabs (binary_normalize prec emax (- z) e false)
  = SFabs (binary_normalize prec emax z e false).
Proof.
  destruct z as [|p|p]; cbn [Z.opp binary_normalize]; try reflexivity;
    unfold binary_round;
    destruct (shl_align _ _ _) as [mz ez]; apply SFabs_binary_round_aux.
Qed.

Lemma SFabs_sub_comm x y :
  SFabs (SFsub prec emax x y) = SFabs (SFsub prec emax y x).
Proof.
  destruct x as [[]|[]| |sx mx ex], y as [[]|[]| |sy my ey];
    cbn [SFsub SFabs negb]; try reflexivity.
  rewrite (Z.min_comm ey ex).
  rewrite <- SFabs_binary_normalize_opp. f_equal. f_equal. lia.
Qed.

Lemma abs_sub_comm x y :
  PrimFloat.abs (x - y)%float = PrimFloat.abs (y - x)%float.
Proof.
  apply Prim2SF_inj.
  rewrite !FloatAxioms.abs_spec, !FloatAxioms.sub_spec.
  apply SFabs_sub_comm.
Qed.

Lemma abs_nonneg x : is_number x -> (0 <=? PrimFloat.abs x)%float = true.
Proof.
  intros H. apply number_not_nan in H.
  rewrite FloatAxioms.leb_spec, FloatAxioms.abs_spec.
  change (Prim2SF 0) with (S754_zero false).
  destruct (Prim2SF x) as [s|s| |s m e]; try reflexivity. congruence.
Qed.

Lemma nan_not_above x y : is_nan y = true -> (x <? y)%float = false.
Proof.
  unfold is_nan. rewrite FloatAxioms.eqb_spec, FloatAxioms.ltb_spec.
  intros H. unfold SFeqb in H. 
  destruct (Prim2SF y) as [s|s| |s m e] eqn:E.
  - destruct s; discriminate.
  - destruct s; discriminate.
  - unfold SFltb. destruct (Prim2SF x) as [[]|[]| |[] ? ?]; reflexivity.
  - rewrite SFcompare_refl in H by discriminate. discriminate.
Qed.

Lemma nan_not_below x y : is_nan x = true -> (x <=? y)%float = false.
Proof.
  unfold is_nan. rewrite FloatAxioms.eqb_spec, FloatAxioms.leb_spec.
  intros H. unfold SFeqb in H.
  destruct (Prim2SF x) as [s|s| |s m e] eqn:E.
  - destruct s; discriminate.
  - destruct s; discriminate.
  - reflexivity.
  - rewrite SFcompare_refl in H by discriminate. discriminate.
Qed.

Lemma leb_ltb_negb x y :
  is_number x -> is_number y -> (x <=? y)%float = negb (y <? x)%float.
Proof.
  intros Hx Hy. destruct (y <? x)%float eqn:E.
  - apply ltb_leb_false. assumption.
  - apply leb_total; assumption.
Qed.

(** X2.  When the largest and the smallest singular value [JacobiSVD]
    returns are the same positive finite double (a 1 x 1 matrix, a multiple
    of an orthogonal matrix), [compute_condition_number] returns exactly 1:
    the binary64 quotient of such a double by itself is 1. *)
Theorem equal_extremes_condition_one `{External} (A : Matrix) (s : double)
    (rest : list double) :
  singularValues A = s :: rest ->
  last (s :: rest) s = s ->
  (0 <? s)%float = true -> (s <? infinity)%float = true ->
  compute_condition_number A = Some 1%float.
Proof.
  intros E Hl Hp Hf.
  rewrite (compute_condition_number_eq A s rest E), Hl, div_self by assumption.
  reflexivity.
Qed.

Lemma equal_extremes_condition_one_witness :
  @compute_condition_number (Reference.external [] 0) (mkMatrix 1 1 [5%float])
  = Some 1%float.
Proof.
  apply (@equal_extremes_condition_one (Reference.external [] 0)
           (mkMatrix 1 1 [5%float]) 5%float []); reflexivity.
Defined.

Lemma zip_sub_self (l : list double) :
  (forall x, In x l -> is_number (x - x)%float) ->
  zip_with PrimFloat.sub l l = repeat 0%float (length l).
Proof.
  induction l as [|x l IH]; intros H; [reflexivity|].
  cbn [zip_with length repeat]. rewrite sub_self by (apply H; left; reflexivity).
  f_equal. apply IH. intros y Hy. apply H. right. assumption.
Qed.

Lemma running_max_zeros (n : nat) :
  fold_left (fun m y => if (m <? y)%float then y else m)
            (repeat 0%float n) 0%float = 0%float.
Proof. induction n as [|n IH]; [reflexivity|]. cbn [repeat fold_left]. exact IH. Qed.

Lemma max_abs_zeros (n : nat) :
  n <> 0%nat -> maxCoeff (cwiseAbs (repeat 0%float n)) = Some 0%float.
Proof.
  destruct n as [|n]; [congruence|]. intros _.
  unfold cwiseAbs. rewrite map_repeat. cbn [repeat maxCoeff].
  change (PrimFloat.abs 0) with 0%float. rewrite running_max_zeros. reflexivity.
Qed.

(** X3.  When the two backends return the same eigenvalues and the same
    eigenvectors, all of them finite, both maximum differences of lines
    218-219 are exactly 0. *)
Theorem equal_outputs_differ_by_zero (W : Vector) (V : Matrix) :
  W <> [] -> (forall x, In x W -> is_number (x - x)%float) ->
  coeffs V <> [] -> (forall x, In x (coeffs V) -> is_number (x - x)%float) ->
  max_diff_values W W = Some 0%float /\ max_diff_vectors V V = Some 0%float.
Proof.
  intros HW HnW HV HnV. split.
  - unfold max_diff_values, vector_sub. rewrite Nat.eqb_refl.
    rewrite zip_sub_self by assumption. apply max_abs_zeros.
    destruct W; [congruence|discriminate].
  - unfold max_diff_vectors, matrix_sub, same_shape. rewrite !Nat.eqb_refl.
    cbn [andb difference coeffs]. rewrite zip_sub_self by assumption.
    apply max_abs_zeros. destruct (coeffs V); [congruence|discriminate].
Qed.

Lemma equal_outputs_differ_by_zero_witness :
  max_diff_values [2; 3]%float [2; 3]%float = Some 0%float
  /\ max_diff_vectors diag_2_3 diag_2_3 = Some 0%float.
Proof.
  apply (equal_outputs_differ_by_zero [2; 3]%float diag_2_3);
    try discriminate;
    intros x Hx; cbn in Hx;
    repeat (destruct Hx as [<-|Hx]; [reflexivity|]); destruct Hx.
Defined.

Lemma abs_zip_sub_comm (a b : list double) :
  cwiseAbs (zip_with PrimFloat.sub a b) = cwiseAbs (zip_with PrimFloat.sub b a).
Proof.
  revert b. induction a as [|x a IH]; intros [|y b]; try reflexivity.
  cbn [zip_with cwiseAbs map]. rewrite abs_sub_comm. f_equal. apply IH.
Qed.

(** X4.  The maximum differences of lines 218-219 do not depend on which
    backend is subtracted from which: exchanging the operands gives the same
    double, or the same failed size assertion. *)
Theorem max_differences_symmetric (W1 W2 : Vector) (V1 V2 : Matrix) :
  max_diff_values W1 W2 = max_diff_values W2 W1
  /\ max_diff_vectors V1 V2 = max_diff_vectors V2 V1.
Proof.
  split.
  - unfold max_diff_values, vector_sub.
    rewrite (Nat.eqb_sym (length W2) (length W1)).
    destruct (Nat.eqb (length W1) (length W2)); [|reflexivity].
    rewrite abs_zip_sub_comm. reflexivity.
  - unfold max_diff_vectors, matrix_sub, same_shape.
    rewrite (Nat.eqb_sym (rows V2)), (Nat.eqb_sym (cols V2)).
    destruct (Nat.eqb (rows V1) (rows V2) && Nat.eqb (cols V1) (cols V2));
      [|reflexivity].
    cbn [difference coeffs]. rewrite abs_zip_sub_comm. reflexivity.
Qed.

(** X5.  A maximum difference of lines 218-219 is never negative when none
    of the coefficient-wise differences is a NaN. *)
Theorem max_differences_not_negative (W1 W2 : Vector) (V1 V2 : Matrix)
    (m : double) :
  (max_diff_values W1 W2 = Some m ->
   (forall i, (i < length W1)%nat ->
              is_number (nth i W1 0 - nth i W2 0)%float) ->
   (0 <=? m)%float = true)
  /\
  (max_diff_vectors V1 V2 = Some m ->
   length (coeffs V1) = length (coeffs V2) ->
   (forall k, (k < length (coeffs V1))%nat ->
              is_number (nth k (coeffs V1) 0 - nth k (coeffs V2) 0)%float) ->
   (0 <=? m)%float = true).
Proof.
  assert (G : forall a b : list double,
             length a = length b ->
             maxCoeff (cwiseAbs (zip_with PrimFloat.sub a b)) = Some m ->
             (forall i, (i < length a)%nat ->
                        is_number (nth i a 0 - nth i b 0)%float) ->
             (0 <=? m)%float = true).
  { intros a b Hl Hm Hn.
    assert (Hpos : (0 < length a)%nat).
    { destruct a as [|x a]; [|cbn; lia].
      destruct b; cbn in Hm; discriminate. }
    destruct (max_abs_diff_spec a b Hl Hpos Hn) as (r & Hr & (i & Hi & Er) & _).
    rewrite Hm in Hr. injection Hr as Emr. rewrite Emr, Er.
    apply abs_nonneg. apply Hn. assumption. }
  split.
  - unfold max_diff_values, vector_sub.
    destruct (Nat.eqb_spec (length W1) (length W2)); [|discriminate].
    intros Hm Hn. exact (G W1 W2 e Hm Hn).
  - unfold max_diff_vectors, matrix_sub.
    destruct (same_shape V1 V2); [|discriminate].
    cbn [difference coeffs]. intros Hm Hl Hn. exact (G _ _ Hl Hm Hn).
Qed.

Lemma max_differences_not_negative_witness :
  max_diff_values [2; 3]%float [3; 2]%float = Some 1%float
  /\ (0 <=? 1)%float = true.
Proof.
  split; [reflexivity|].
  apply (proj1 (max_differences_not_negative
                  [2; 3]%float [3; 2]%float diag_2_3 diag_2_3 1%float)).
  - reflexivity.
  - intros [|[|i]] Hi; try reflexivity. cbn in Hi. lia.
Defined.

(** ** The wrapper (src/eigen_interface.cpp, lines 21-39) *)

Section WrapperOutputs.

Context `{ext : External}.

Lemma overwrite_length (old new : list double) :
  length (overwrite old new) = length old.
Proof.
  unfold overwrite. rewrite length_firstn, length_app, length_skipn. lia.
Qed.

Lemma overwrite_full (old new : list double) :
  length new = length old -> overwrite old new = new.
Proof.
  intros H. unfold overwrite. rewrite H, skipn_all, app_nil_r, <- H.
  apply firstn_all.
Qed.

Lemma upd_same {T} (f : positive -> T) (l : positive) (v : T) : upd f l v l = v.
Proof. unfold upd. rewrite Pos.eqb_refl. reflexivity. Qed.

Lemma unwritten_length (n : nat) : length (unwritten n) = n.
Proof. unfold unwritten. rewrite length_map, length_seq. reflexivity. Qed.

Lemma vector_resize_length (W : Vector) (n : nat) :
  length (vector_resize W n) = n.
Proof.
  unfold vector_resize. destruct (Nat.eqb_spec (length W) n); [assumption|].
  apply unwritten_length.
Qed.

Lemma matrix_resize_wf (V : Matrix) (r c : nat) :
  wf_matrix V ->
  rows (matrix_resize V r c) = r /\ cols (matrix_resize V r c) = c /\
  wf_matrix (matrix_resize V r c).
Proof.
  unfold wf_matrix, matrix_resize. intros H.
  destruct (Nat.eqb_spec (rows V * cols V) (r * c)); cbn [rows cols coeffs];
    repeat split; [congruence|apply unwritten_length].
Qed.

(** the state of the outputs after the wrapper, in terms of what the
    subroutine wrote *)
Lemma eigen_decomposition_stores (A W V : positive) (w : world) :
  Z.of_nat (rows (mats w A)) <= INT_MAX ->
  vecs (snd (eigen_decomposition A W V w)) W
  = overwrite (vector_resize (vecs w W) (rows (mats w A)))
              (fst (subroutine_outputs A W V w))
  /\ mats (snd (eigen_decomposition A W V w)) V
     = mkMatrix (rows (mats w A)) (rows (mats w A))
         (overwrite (coeffs (matrix_resize (mats w V) (rows (mats w A))
                               (rows (mats w A))))
                    (snd (subroutine_outputs A W V w))).
Proof.
  intros Hn. unfold eigen_decomposition, subroutine_outputs.
  rewrite (int_of_Index_small _ Hn), Nat2Z.id.
  destruct (Z.ltb_spec (Z.of_nat (rows (mats w A))) 0); [lia|].
  cbn [mats vecs store_mat store_vec]. rewrite !upd_same.
  destruct (fortran_eigen_decomposition _ _ _ _) as [[[a' W'] V'] info].
  cbn [fst snd].
  assert (R : rows (matrix_resize (mats w V) (rows (mats w A)) (rows (mats w A)))
              = rows (mats w A)
           /\ cols (matrix_resize (mats w V) (rows (mats w A)) (rows (mats w A)))
              = rows (mats w A)).
  { unfold matrix_resize. destruct (Nat.eqb _ _); split; reflexivity. }
  destruct R as [Rr Rc].
  destruct (negb (info =? 0)); cbn [snd mats vecs store_mat store_vec];
    rewrite !upd_same, ?Rr, ?Rc; split; reflexivity.
Qed.

(** the sizes of the outputs after the wrapper *)
Lemma eigen_decomposition_sizes (A W V : positive) (w : world) :
  Z.of_nat (rows (mats w A)) <= INT_MAX ->
  wf_matrix (mats w V) ->
  length (vecs (snd (eigen_decomposition A W V w)) W) = rows (mats w A)
  /\ rows (mats (snd (eigen_decomposition A W V w)) V) = rows (mats w A)
  /\ cols (mats (snd (eigen_decomposition A W V w)) V) = rows (mats w A)
  /\ wf_matrix (mats (snd (eigen_decomposition A W V w)) V).
Proof.
  intros Hn Hwf.
  destruct (eigen_decomposition_stores A W V w Hn) as [EW EV].
  rewrite EW, EV. split; [|split; [|split]]; try reflexivity.
  - rewrite overwrite_length. apply vector_resize_length.
  - unfold wf_matrix. cbn [rows cols coeffs]. rewrite overwrite_length.
    destruct (matrix_resize_wf (mats w V) (rows (mats w A)) (rows (mats w A)) Hwf)
      as (Hr & Hc & Hw).
    unfold wf_matrix in Hw. rewrite Hw, Hr, Hc. reflexivity.
Qed.


(** X7.  When the Fortran subroutine writes [n] eigenvalues and [n * n]
    eigenvector coefficients, [W] and [V] hold exactly these after the
    wrapper, whatever they held before and whether the wrapper returns or
    throws. *)
Theorem wrapper_hands_over_outputs (A W V : positive) (w : world)
    (W_data V_data : list double) :
  Z.of_nat (rows (mats w A)) <= INT_MAX ->
  wf_matrix (mats w V) ->
  subroutine_outputs A W V w = (W_data, V_data) ->
  length W_data = rows (mats w A) ->
  length V_data = (rows (mats w A) * rows (mats w A))%nat ->
  vecs (snd (eigen_decomposition A W V w)) W = W_data
  /\ coeffs (mats (snd (eigen_decomposition A W V w)) V) = V_data.
Proof.
  intros Hn Hwf E HW HV.
  destruct (eigen_decomposition_stores A W V w Hn) as [EW EV].
  rewrite EW, EV, E. cbn [fst snd coeffs]. split.
  - apply overwrite_full. rewrite vector_resize_length. assumption.
  - apply overwrite_full.
    destruct (matrix_resize_wf (mats w V) (rows (mats w A)) (rows (mats w A)) Hwf)
      as (Hr & Hc & Hw).
    unfold wf_matrix in Hw. rewrite Hw, Hr, Hc. assumption.
Qed.

End WrapperOutputs.


Lemma wrapper_hands_over_outputs_witness :
  vecs (snd (@eigen_decomposition (Reference.external [] 0)
               obj_A obj_W_fortran obj_V_fortran
               (store_mat obj_A diag_2_3 (Reference.start ""))))
       obj_W_fortran = [2; 3]%float.
Proof.
  apply (@wrapper_hands_over_outputs (Reference.external [] 0)
           obj_A obj_W_fortran obj_V_fortran
           (store_mat obj_A diag_2_3 (Reference.start ""))
           [2; 3]%float [1; 0; 0; 1]%float); try reflexivity.
  vm_compute. discriminate.
Defined.

(** ** What the regeneration writes (src/main.cpp, lines 111-134) *)

Section Traces.

Context `{ext : External}.

Lemma cin_char_full (w : world) (rest : list ascii) :
  cin_holds w rest ->
  exists w2, cin_char w = (Val (hd_error rest), w2) /\
             cin_holds w2 (tl rest) /\
             rand_count w2 = rand_count w /\ mats w2 = mats w /\
             cout w2 = cout w /\ outfile w2 = outfile w /\ cerr w2 = cerr w.
Proof.
  intros Hh. destruct (cin_char_spec w rest Hh) as (w2 & E & Hh2 & Hr & Hm).
  destruct (cin_char_frame w) as (o & w2' & E' & Hco & Hof & Hce & _).
  rewrite E in E'. inversion E'; subst.
  exists w2'. repeat split; assumption || apply Hh2.
Qed.

(** a turn of the loop on a matrix whose condition number is not at or
    below the threshold: both lines are written and the question is asked *)
Lemma regenerate_loop_asks_again (f : nat) (size : Z) (reg : ascii)
    (rest : list ascii) (w : world) (c : double) :
  0 <= size -> cin_holds w rest -> is_yes reg = true ->
  compute_condition_number (drawn w size 0) = Some c ->
  (c <=? condition_number_threshold)%float = false ->
  exists w2,
    regenerate_loop (S f) size reg w = regenerate_loop f size (hd reg rest) w2
    /\ cin_holds w2 (tl rest)
    /\ rand_count w2 = (rand_count w + Z.to_nat size * Z.to_nat size)%nat
    /\ mats w2 obj_A = drawn w size 0
    /\ outfile w2 = outfile w ++ new_line c
    /\ cout w2 = cout w ++ new_line c ++ [Str "Regenerate again? (y/n): "].
Proof.
  intros Hsz Hcin Hyes Hc Hle. rewrite drawn_0 in *.
  cbn [regenerate_loop]. rewrite Hyes.
  unfold bind at 1. unfold Random. rewrite (size_not_negative size Hsz).
  unfold bind at 1. cbn [set_mat].
  unfold bind at 1. rewrite Hc. cbn [eigen_assert ret].
  unfold bind at 1. cbn [cout_put]. unfold bind at 1. cbn [outfile_put].
  rewrite Hle.
  unfold bind at 1. cbn [cout_put].
  match goal with |- context [bind cin_char _ ?w1] =>
    destruct (cin_char_full w1 rest) as (w2 & E & Hh & Hr & Hm & Hco & Hof & _)
  end.
  { exact Hcin. }
  exists w2. split; [|split; [assumption|split; [|split; [|split]]]].
  - unfold bind at 1. rewrite E. destruct rest; reflexivity.
  - rewrite Hr. reflexivity.
  - rewrite Hm. reflexivity.
  - rewrite Hof. reflexivity.
  - rewrite Hco. cbn [cout store_mat]. rewrite <- app_assoc. reflexivity.
Qed.

(** the turn that leaves the loop *)
Lemma regenerate_loop_leaves (f : nat) (size : Z) (reg : ascii) (w : world)
    (c : double) :
  0 <= size -> is_yes reg = true ->
  compute_condition_number (drawn w size 0) = Some c ->
  (c <=? condition_number_threshold)%float = true ->
  exists w2,
    regenerate_loop (S f) size reg w = (Val tt, w2)
    /\ outfile w2 = outfile w ++ new_line c
    /\ cout w2 = cout w ++ new_line c.
Proof.
  intros Hsz Hyes Hc Hle. rewrite drawn_0 in *.
  cbn [regenerate_loop]. rewrite Hyes.
  unfold bind at 1. unfold Random. rewrite (size_not_negative size Hsz).
  unfold bind at 1. cbn [set_mat].
  unfold bind at 1. rewrite Hc. cbn [eigen_assert ret].
  unfold bind at 1. cbn [cout_put]. unfold bind at 1. cbn [outfile_put].
  rewrite Hle. eexists. split; [reflexivity|]. split; reflexivity.
Qed.

Lemma flat_map_seq_S {T} (f : nat -> list T) (n : nat) :
  flat_map f (seq 0 (S n)) = f 0%nat ++ flat_map (fun j => f (S j)) (seq 0 n).
Proof.
  cbn [seq flat_map]. f_equal. rewrite <- seq_shift, flat_map_concat_map, map_map.
  rewrite <- flat_map_concat_map. reflexivity.
Qed.

Lemma loop_declined_log (k : nat) :
  forall (fuel : nat) (size : Z) (reg : ascii) (rest : list ascii) (w : world)
         (cs : nat -> double),
  0 <= size -> cin_holds w rest ->
  (forall j, (j < k)%nat ->
     is_yes (pending reg rest j) = true /\
     compute_condition_number (drawn w size j) = Some (cs j) /\
     (cs j <=? condition_number_threshold)%float = false) ->
  is_yes (pending reg rest k) = false -> (k <= fuel)%nat ->
  fst (regenerate_loop fuel size reg w) = Val tt /\
  outfile (snd (regenerate_loop fuel size reg w))
  = outfile w ++ flat_map (fun j => new_line (cs j)) (seq 0 k).
Proof.
  induction k as [|k IH]; intros fuel size reg rest w cs Hsz Hcin Hturns Hno Hfuel.
  - change (pending reg rest 0) with reg in Hno.
    assert (E : regenerate_loop fuel size reg w = (Val tt, w))
      by (destruct fuel; cbn [regenerate_loop]; rewrite Hno; reflexivity).
    rewrite E. cbn. rewrite app_nil_r. split; reflexivity.
  - destruct fuel as [|f]; [lia|].
    destruct (Hturns 0%nat ltac:(lia)) as (Hyes & Hc & Hle).
    change (pending reg rest 0) with reg in Hyes.
    destruct (regenerate_loop_asks_again f size reg rest w (cs 0%nat)
                Hsz Hcin Hyes Hc Hle) as (w2 & E & Hcin2 & Hr2 & _ & Hof & _).
    rewrite E.
    destruct (IH f size (hd reg rest) (tl rest) w2 (fun j => cs (S j)) Hsz Hcin2)
      as [Ho Hlog].
    + intros j Hj. rewrite pending_next, (drawn_next w w2 size j Hr2).
      apply Hturns. lia.
    + rewrite pending_next. assumption.
    + lia.
    + split; [assumption|].
      rewrite Hlog, Hof, flat_map_seq_S, app_assoc. reflexivity.
Qed.

Lemma loop_satisfied_log (k : nat) :
  forall (fuel : nat) (size : Z) (reg : ascii) (rest : list ascii) (w : world)
         (cs : nat -> double),
  0 <= size -> cin_holds w rest ->
  (forall j, (j < k)%nat ->
     is_yes (pending reg rest j) = true /\
     compute_condition_number (drawn w size j) = Some (cs j) /\
     (cs j <=? condition_number_threshold)%float = false) ->
  is_yes (pending reg rest k) = true ->
  compute_condition_number (drawn w size k) = Some (cs k) ->
  (cs k <=? condition_number_threshold)%float = true ->
  (k < fuel)%nat ->
  fst (regenerate_loop fuel size reg w) = Val tt /\
  outfile (snd (regenerate_loop fuel size reg w))
  = outfile w ++ flat_map (fun j => new_line (cs j)) (seq 0 (S k)).
Proof.
  induction k as [|k IH];
    intros fuel size reg rest w cs Hsz Hcin Hturns Hyes Hc Hle Hfuel;
    (destruct fuel as [|f]; [lia|]).
  - change (pending reg rest 0) with reg in Hyes.
    destruct (regenerate_loop_leaves f size reg w (cs 0%nat) Hsz Hyes Hc Hle)
      as (w2 & E & Hof & _).
    rewrite E. cbn [fst snd]. rewrite Hof. cbn. rewrite ?app_nil_r.
    split; reflexivity.
  - destruct (Hturns 0%nat ltac:(lia)) as (Hyes0 & Hc0 & Hle0).
    change (pending reg rest 0) with reg in Hyes0.
    destruct (regenerate_loop_asks_again f size reg rest w (cs 0%nat)
                Hsz Hcin Hyes0 Hc0 Hle0) as (w2 & E & Hcin2 & Hr2 & _ & Hof & _).
    rewrite E.
    destruct (IH f size (hd reg rest) (tl rest) w2 (fun j => cs (S j)) Hsz Hcin2)
      as [Ho Hlog].
    + intros j Hj. rewrite pending_next, (drawn_next w w2 size j Hr2).
      apply Hturns. lia.
    + rewrite pending_next. assumption.
    + rewrite (drawn_next w w2 size k Hr2). assumption.
    + assumption.
    + lia.
    + split; [assumption|].
      rewrite Hlog, Hof, (flat_map_seq_S _ (S k)), app_assoc. reflexivity.
Qed.

(** the first matrix is poorly conditioned: the first line is written, the
    question asked, the loop entered *)
Lemma generate_asks_log (fuel : nat) (size : Z) (w : world) (c0 : ascii)
    (t : list ascii) (c : double) :
  0 <= size -> cin_fail w = false -> answers (cin w) = c0 :: t ->
  compute_condition_number (drawn w size 0) = Some c ->
  (condition_number_threshold <? c)%float = true ->
  exists w2,
    generate fuel size w = regenerate_loop fuel size c0 w2
    /\ cin_holds w2 t
    /\ rand_count w2 = (rand_count w + Z.to_nat size * Z.to_nat size)%nat
    /\ outfile w2 = outfile w ++ first_line c.
Proof.
  intros Hsz Hf Ha Hc Hlt. rewrite drawn_0 in *.
  unfold generate.
  unfold bind at 1. unfold Random. rewrite (size_not_negative size Hsz).
  unfold bind at 1. cbn [set_mat].
  unfold bind at 1. rewrite Hc. cbn [eigen_assert ret].
  unfold bind at 1. cbn [cout_put]. unfold bind at 1. cbn [outfile_put].
  rewrite Hlt. unfold bind at 1. cbn [cout_put].
  match goal with |- context [bind cin_char _ ?w1] =>
    destruct (cin_char_full w1 (c0 :: t)) as (w2 & E & Hh & Hr & Hm & Hco & Hof & _)
  end.
  { split; [exact Ha|]. cbn [cin_fail]. rewrite Hf. discriminate. }
  exists w2. split; [|split; [assumption|split]].
  - unfold bind at 1. rewrite E. reflexivity.
  - rewrite Hr. reflexivity.
  - rewrite Hof. reflexivity.
Qed.

(** X8.  The results file receives one line per condition number computed:
    the line of the first matrix and one line for every regenerated matrix,
    in the order of generation, and none of the questions.  After [k]
    accepted offers followed by a refusal it holds [k + 1] lines, after [k]
    accepted offers followed by one more whose matrix is at or below the
    threshold it holds [k + 2]. *)
Theorem results_file_logs_condition_numbers (fuel : nat) (size : Z)
    (w : world) (k : nat) (conds : nat -> double) :
  0 <= size -> cin_fail w = false ->
  (condition_number_threshold <? conds 0%nat)%float = true ->
  (forall j, (j < k)%nat ->
     accepts (answers (cin w)) j /\
     (conds (S j) <=? condition_number_threshold)%float = false) ->
  (declines (answers (cin w)) k -> (k <= fuel)%nat ->
   (forall j, (j <= k)%nat ->
      compute_condition_number (drawn w size j) = Some (conds j)) ->
   fst (generate fuel size w) = Val tt /\
   outfile (snd (generate fuel size w)) = outfile w ++ logged conds k)
  /\
  (accepts (answers (cin w)) k ->
   (conds (S k) <=? condition_number_threshold)%float = true ->
   (k < fuel)%nat ->
   (forall j, (j <= S k)%nat ->
      compute_condition_number (drawn w size j) = Some (conds j)) ->
   fst (generate fuel size w) = Val tt /\
   outfile (snd (generate fuel size w)) = outfile w ++ logged conds (S k)).
Proof.
  intros Hsz Hf Hpoor Hturns.
  assert (Hloop : forall c0 t w2,
            answers (cin w) = c0 :: t ->
            rand_count w2 = (rand_count w + Z.to_nat size * Z.to_nat size)%nat ->
            (forall j, (j <= k)%nat ->
               compute_condition_number (drawn w size j) = Some (conds j)) ->
            forall j, (j < k)%nat ->
              is_yes (pending c0 t j) = true /\
              compute_condition_number (drawn w2 size j) = Some (conds (S j)) /\
              (conds (S j) <=? condition_number_threshold)%float = false).
  { intros c0 t w2 Ha Hr Hc j Hj. destruct (Hturns j Hj) as [Hacc Hle].
    rewrite (drawn_next w w2 size j Hr). split; [|split; [apply Hc; lia|assumption]].
    destruct (accepts_inv _ _ Hacc) as (c0' & t' & Ha' & Hy).
    rewrite Ha in Ha'. inversion Ha'; subst. assumption. }
  split.
  - intros Hdec Hfuel Hc.
    destruct (declines_inv _ _ Hdec) as (c0 & t & Ha & Hno).
    destruct (generate_asks_log fuel size w c0 t (conds 0%nat) Hsz Hf Ha
                (Hc 0%nat ltac:(lia)) Hpoor) as (w2 & E & Hcin2 & Hr2 & Hof).
    rewrite E.
    destruct (loop_declined_log k fuel size c0 t w2 (fun j => conds (S j))
                Hsz Hcin2 (Hloop c0 t w2 Ha Hr2 Hc) Hno Hfuel) as [Ho Hlog].
    split; [assumption|]. rewrite Hlog, Hof. unfold logged.
    rewrite app_assoc. reflexivity.
  - intros Hacc Hle Hfuel Hc.
    destruct (accepts_inv _ _ Hacc) as (c0 & t & Ha & Hyes).
    destruct (generate_asks_log fuel size w c0 t (conds 0%nat) Hsz Hf Ha
                (Hc 0%nat ltac:(lia)) Hpoor) as (w2 & E & Hcin2 & Hr2 & Hof).
    rewrite E.
    destruct (loop_satisfied_log k fuel size c0 t w2 (fun j => conds (S j))
                Hsz Hcin2) as [Ho Hlog].
    + apply (Hloop c0 t w2 Ha Hr2). intros j Hj. apply Hc. lia.
    + assumption.
    + rewrite (drawn_next w w2 size k Hr2). apply Hc. lia.
    + assumption.
    + assumption.
    + split; [assumption|]. rewrite Hlog, Hof. unfold logged.
      rewrite app_assoc. reflexivity.
Qed.

(** X9.  A condition number that is a NaN passes the test of line 116 and
    fails the test of line 130: a first matrix with such a condition number
    is kept without any question, reading nothing from standard input,
    whereas a regenerated matrix with such a condition number makes the
    loop ask again. *)
Theorem nan_condition_number_asymmetry (fuel f : nat) (size : Z) (w : world)
    (c : double) (reg : ascii) (rest : list ascii) :
  0 <= size -> is_nan c = true ->
  compute_condition_number (drawn w size 0) = Some c ->
  (exists w', generate fuel size w = (Val tt, w')
              /\ mats w' obj_A = drawn w size 0
              /\ cin w' = cin w
              /\ cout w' = cout w ++ first_line c)
  /\
  (cin_holds w rest -> is_yes reg = true ->
   exists w2,
     regenerate_loop (S f) size reg w = regenerate_loop f size (hd reg rest) w2
     /\ mats w2 obj_A = drawn w size 0
     /\ cout w2 = cout w ++ new_line c ++ [Str "Regenerate again? (y/n): "]).
Proof.
  intros Hsz Hnan Hc. split.
  - pose proof (nan_not_above condition_number_threshold c Hnan) as Hlt.
    rewrite drawn_0 in *. unfold generate.
    unfold bind at 1. unfold Random. rewrite (size_not_negative size Hsz).
    unfold bind at 1. cbn [set_mat].
    unfold bind at 1. rewrite Hc. cbn [eigen_assert ret].
    unfold bind at 1. cbn [cout_put]. unfold bind at 1. cbn [outfile_put].
    rewrite Hlt. eexists. split; [reflexivity|]. repeat split.
  - intros Hcin Hyes.
    destruct (regenerate_loop_asks_again f size reg rest w c Hsz Hcin Hyes Hc
                (nan_not_below c condition_number_threshold Hnan))
      as (w2 & E & _ & _ & Hm & _ & Hco).
    exists w2. repeat split; assumption.
Qed.

End Traces.

Lemma results_file_logs_condition_numbers_witness :
  outfile (snd (@generate
                  (Reference.external [1; 0; 0; 0x1p-24; 2; 0; 0; 3]%float 0)
                  1 2 (Reference.start "y")))
  = [Str "Condition number of the matrix: "; Dbl 0x1p+24%float; Endl;
     Str "Condition number of the new matrix: "; Dbl 1.5%float; Endl].
Proof.
  destruct (@results_file_logs_condition_numbers
              (Reference.external [1; 0; 0; 0x1p-24; 2; 0; 0; 3]%float 0)
              1 2 (Reference.start "y") 0
              (fun j => match j with O => 0x1p+24 | _ => 1.5 end)%float)
    as [_ H]; [lia | reflexivity | reflexivity | intros j Hj; lia |].
  destruct H as [_ H].
  - exists "y"%char. split; reflexivity.
  - reflexivity.
  - lia.
  - intros [|[|j]] Hj; try reflexivity. lia.
  - exact H.
Defined.

Lemma nan_condition_number_asymmetry_witness :
  exists w',
    @generate (Reference.external [0]%float 0) 0 1 (Reference.start "y")
    = (Val tt, w')
    /\ cin w' = "y"%string.
Proof.
  destruct (@nan_condition_number_asymmetry (Reference.external [0]%float 0)
              0 0 1 (Reference.start "y") nan "y"%char [])
    as [(w' & E & _ & Hc & _) _]; [lia | reflexivity | reflexivity |].
  exists w'. split; [exact E | exact Hc].
Defined.

(** ** The results file and the console (src/main.cpp, lines 99-270) *)

Section Mirror.

Context `{ext : External}.

Lemma silent_keeps {T} (m : M T) : silent m -> keeps m.
Proof.
  intros Hs c0 w (l & Hc & Ho). destruct (Hs w) as [Ec Eo].
  exists l. rewrite Ec, Eo. split; assumption.
Qed.

Lemma keeps_bind {T U} (m : M T) (k : T -> M U) :
  keeps m -> (forall v, keeps (k v)) -> keeps (bind m k).
Proof.
  intros Hm Hk c0 w Hw. specialize (Hm c0 w Hw). unfold bind.
  destruct (m w) as [[v|e|c| |] w1]; cbn [snd] in *; try assumption.
  apply Hk. assumption.
Qed.

Lemma keeps_try_catch {T} (m : M T) (h : exn -> M T) :
  keeps m -> (forall e, keeps (h e)) -> keeps (try_catch m h).
Proof.
  intros Hm Hh c0 w Hw. specialize (Hm c0 w Hw). unfold try_catch.
  destruct (m w) as [[v|e|c| |] w1]; cbn [snd] in *; try assumption.
  apply Hh. assumption.
Qed.

(** a line written to the console and then to the file *)
Lemma keeps_echo {T} (l : ostream) (k : M T) :
  file_part l = l -> keeps k ->
  keeps (cout_put l ;; outfile_put l ;; k).
Proof.
  intros Hl Hk c0 w (l0 & Hc & Ho). unfold bind at 1. cbn [cout_put].
  unfold bind at 1. cbn [outfile_put]. apply Hk.
  exists (l0 ++ l). cbn [cout outfile]. unfold file_part in *.
  rewrite filter_app, Hl, Hc, Ho, app_assoc. split; reflexivity.
Qed.

(** a question *)
Lemma keeps_prompt (l : ostream) : file_part l = [] -> keeps (cout_put l).
Proof.
  intros Hl c0 w (l0 & Hc & Ho). cbn [cout_put snd].
  exists (l0 ++ l). cbn [cout outfile]. unfold file_part in *.
  rewrite filter_app, Hl, Hc, Ho, app_assoc, app_nil_r. split; reflexivity.
Qed.

Lemma silent_ret {T} (v : T) : silent (ret v).
Proof. intros w. split; reflexivity. Qed.

Lemma silent_throw {T} (e : exn) : silent (@throw T e).
Proof. intros w. split; reflexivity. Qed.

Lemma silent_return {T} (c : Z) : silent (@return_ T c).
Proof. intros w. split; reflexivity. Qed.

Lemma silent_undef {T} : silent (@undef T).
Proof. intros w. split; reflexivity. Qed.

Lemma silent_out_of_fuel {T} : silent (@out_of_fuel T).
Proof. intros w. split; reflexivity. Qed.

Lemma silent_eigen_assert {T} (o : option T) : silent (eigen_assert o).
Proof. destruct o; intros w; split; reflexivity. Qed.

Lemma silent_cerr_put (l : ostream) : silent (cerr_put l).
Proof. intros w. split; reflexivity. Qed.

Lemma silent_now : silent now.
Proof. intros w. split; reflexivity. Qed.

Lemma silent_get_mat (l : positive) : silent (get_mat l).
Proof. intros w. split; reflexivity. Qed.

Lemma silent_get_vec (l : positive) : silent (get_vec l).
Proof. intros w. split; reflexivity. Qed.

Lemma silent_set_mat (l : positive) (A : Matrix) : silent (set_mat l A).
Proof. intros w. split; reflexivity. Qed.

Lemma silent_set_vec (l : positive) (v : Vector) : silent (set_vec l v).
Proof. intros w. split; reflexivity. Qed.

Lemma silent_Random (r c : Z) : silent (Random r c).
Proof.
  intros w. unfold Random. destruct ((r <? 0) || (c <? 0)); split; reflexivity.
Qed.

Lemma silent_cin_char : silent cin_char.
Proof.
  intros w. unfold cin_char. destruct (cin_fail w); [split; reflexivity|].
  destruct (skipws (cin w)); split; reflexivity.
Qed.

Lemma silent_cin_int : silent cin_int.
Proof.
  intros w. unfold cin_int. destruct (cin_fail w); [split; reflexivity|].
  destruct (skipws (cin w)) as [|c s]; [split; reflexivity|].
  destruct (parse_integer (String c s)) as [[v rest]|]; [|split; reflexivity].
  destruct (v <? INT_MIN); [split; reflexivity|].
  destruct (INT_MAX <? v); split; reflexivity.
Qed.

Lemma silent_eigen_decomposition (A W V : positive) :
  silent (eigen_decomposition A W V).
Proof.
  intros w. destruct (eigen_decomposition_streams A W V w) as (Hc & _ & Ho).
  split; assumption.
Qed.

Lemma silent_construct_solver (A : Matrix) : silent (construct_solver A).
Proof.
  unfold construct_solver. destruct (Nat.eqb (rows A) (cols A));
    [|apply silent_undef].
  destruct (EigenSolver A); [apply silent_throw|apply silent_ret].
Qed.

Ltac keeps_steps :=
  repeat first
    [ apply keeps_echo; [reflexivity|]
    | apply keeps_bind; [|intros ?]
    | apply keeps_try_catch; [|intros ?]
    | apply keeps_prompt; reflexivity
    | apply silent_keeps;
      first [ apply silent_ret | apply silent_throw | apply silent_return
            | apply silent_undef | apply silent_out_of_fuel
            | apply silent_eigen_assert | apply silent_cerr_put
            | apply silent_now | apply silent_get_mat | apply silent_get_vec
            | apply silent_set_mat | apply silent_set_vec
            | apply silent_Random | apply silent_cin_char
            | apply silent_cin_int | apply silent_eigen_decomposition
            | apply silent_construct_solver ] ].

Lemma keeps_regenerate_loop (fuel : nat) :
  forall (size : Z) (reg : ascii), keeps (regenerate_loop fuel size reg).
Proof.
  induction fuel as [|f IH]; intros size reg; cbn [regenerate_loop];
    destruct (is_yes reg); keeps_steps.
  destruct (_ <=? _)%float; keeps_steps. apply IH.
Qed.

Lemma keeps_generate (fuel : nat) (size : Z) : keeps (generate fuel size).
Proof.
  unfold generate. keeps_steps.
  destruct (_ <? _)%float; keeps_steps.
  match goal with |- keeps (match ?a with _ => _ end) => destruct a end;
    [apply keeps_regenerate_loop|keeps_steps].
Qed.

Lemma keeps_check_decomposition (A : Matrix) (W : Vector) (V : Matrix)
    (method : string) :
  is_prompt (Str method) = false ->
  keeps (check_decomposition A W V method).
Proof.
  intros Hm. unfold check_decomposition.
  apply keeps_bind; [keeps_steps|intros VD].
  apply keeps_bind; [keeps_steps|intros V_inv].
  apply keeps_bind; [keeps_steps|intros A_r].
  apply keeps_bind; [keeps_steps|intros D].
  apply keeps_echo; [|keeps_steps].
  unfold file_part. cbn [filter]. rewrite Hm. reflexivity.
Qed.

Lemma summary_file_part (flag : bool) (size : Z) (d1 d2 m1 m2 r1 r2 : double) :
  file_part (summary flag size d1 d2 m1 m2 r1 r2)
  = summary flag size d1 d2 m1 m2 r1 r2.
Proof.
  unfold summary. destruct flag, (d1 <? d2)%float; reflexivity.
Qed.

Lemma keeps_compare (flag : bool) (size : Z) : keeps (compare flag size).
Proof.
  unfold compare.
  apply keeps_bind; [unfold declare_results; keeps_steps|intros _].
  apply keeps_bind; [unfold fortran_phase; keeps_steps|intros d_f].
  apply keeps_bind; [keeps_steps|intros A].
  apply keeps_bind; [keeps_steps|intros W_f].
  apply keeps_bind; [keeps_steps|intros V_f].
  apply keeps_bind; [apply keeps_check_decomposition; reflexivity|intros r_f].
  apply keeps_bind;
    [unfold eigen_phase, eigen_with_lapack, eigen_without_lapack;
     destruct flag; keeps_steps|intros d_e].
  apply keeps_bind; [keeps_steps|intros A'].
  apply keeps_bind; [keeps_steps|intros W_e].
  apply keeps_bind; [keeps_steps|intros V_e].
  apply keeps_bind; [apply keeps_check_decomposition; reflexivity|intros r_e].
  apply keeps_bind; [keeps_steps|intros W_f'].
  apply keeps_bind; [keeps_steps|intros W_e'].
  apply keeps_bind; [keeps_steps|intros V_f'].
  apply keeps_bind; [keeps_steps|intros V_e'].
  apply keeps_bind; [keeps_steps|intros mv].
  apply keeps_bind; [keeps_steps|intros mV].
  apply keeps_echo; [apply summary_file_part|keeps_steps].
Qed.

Lemma run_world (fuel : nat) (argv : list string) (w : world) :
  snd (run fuel argv w) = snd (main fuel argv w).
Proof. unfold run. destruct (main fuel argv w) as [[v|e|c| |] w']; reflexivity. Qed.

Lemma keeps_after_open (fuel : nat) (v : Z) :
  keeps (r <- (cout_put [Str "Enter the size of the matrix: "] ;;
               size <- cin_int ;; generate fuel size ;;
               ret (negb (v =? 0), size)) ;;
         compare (fst r) (snd r)).
Proof.
  apply keeps_bind; [|intros r; apply keeps_compare].
  apply keeps_bind; [apply keeps_prompt; reflexivity|intros _].
  apply keeps_bind; [apply silent_keeps, silent_cin_int|intros size].
  apply keeps_bind; [apply keeps_generate|intros _].
  apply silent_keeps, silent_ret.
Qed.

(** X10.  Whatever the run does after the argument has been read, and
    however it ends, the results file holds exactly what the run has written
    to standard output with the three questions removed, in the same order;
    what the file held before the run is discarded. *)
Theorem results_file_mirrors_console (fuel : nat) (argv0 arg : string)
    (w : world) (v : Z) :
  fst (stoi arg w) = Val v ->
  exists l,
    cout (snd (run fuel [argv0; arg] w)) = cout w ++ l
    /\ outfile (snd (run fuel [argv0; arg] w)) = file_part l.
Proof.
  intros Hs. rewrite run_world. unfold main. cbn [length Nat.eqb negb nth].
  unfold setup.
  assert (E : stoi arg w = (Val v, w)).
  { unfold stoi in *. destruct (parse_integer arg) as [[x r]|]; [|discriminate].
    destruct ((x <? INT_MIN) || (INT_MAX <? x)); [discriminate|].
    cbn in Hs. inversion Hs; subst. reflexivity. }
  assert (Eq :
    (r <- (flag <- stoi arg ;; outfile_open ;;
           cout_put [Str "Enter the size of the matrix: "] ;;
           size <- cin_int ;; generate fuel size ;;
           ret (negb (flag =? 0), size)) ;;
     compare (fst r) (snd r)) w
    = (r <- (cout_put [Str "Enter the size of the matrix: "] ;;
             size <- cin_int ;; generate fuel size ;;
             ret (negb (v =? 0), size)) ;;
       compare (fst r) (snd r)) (snd (outfile_open w))).
  { unfold bind. rewrite E. reflexivity. }
  rewrite Eq.
  apply (keeps_after_open fuel v (cout w) (snd (outfile_open w))).
  exists []. split; [symmetry; apply app_nil_r|reflexivity].
Qed.

End Mirror.

Lemma results_file_mirrors_console_witness :
  exists l,
    cout (snd (@run (Reference.external [2; 0; 0; 3]%float 0) 0
                 ["prog"; "0"]%string (Reference.start "2")))
    = l
    /\ outfile (snd (@run (Reference.external [2; 0; 0; 3]%float 0) 0
                       ["prog"; "0"]%string (Reference.start "2")))
       = file_part l.
Proof.
  destruct (@results_file_mirrors_console (Reference.external [2; 0; 0; 3]%float 0)
              0 "prog" "0" (Reference.start "2") 0 eq_refl) as (l & Hc & Ho).
  exists l. split; [exact Hc | exact Ho].
Defined.

(** ** The run that completes (src/main.cpp, lines 137-271) *)

Section Completion.

Context `{ext : External}.

(** the wrapper leaves alone every object but its two outputs *)
Lemma eigen_decomposition_others (A W V : positive) (w : world) :
  (forall l, l <> V -> mats (snd (eigen_decomposition A W V w)) l = mats w l)
  /\ (forall l, l <> W -> vecs (snd (eigen_decomposition A W V w)) l = vecs w l).
Proof.
  unfold eigen_decomposition.
  destruct (_ <? 0); [split; reflexivity|].
  destruct (fortran_eigen_decomposition _ _ _ _) as [[[a' W'] V'] info].
  destruct (negb (info =? 0)); cbn [snd mats vecs store_mat store_vec];
    split; intros l Hl; rewrite !upd_other by assumption; reflexivity.
Qed.

(** lines 148-158 when the subroutine reports success *)
Lemma fortran_phase_success (w : world) :
  0 <= int_of_Index (Z.of_nat (rows (mats w obj_A))) ->
  reported_info obj_A obj_W_fortran obj_V_fortran w = 0 ->
  exists d wE,
    wE = snd (eigen_decomposition obj_A obj_W_fortran obj_V_fortran (snd (now w)))
    /\ fortran_phase w
       = (Val d,
          mkWorld (cin wE) (cin_fail wE) (cout w ++ fortran_duration_line d)
            (cerr w) (outfile w ++ fortran_duration_line d)
            (rand_count wE) (S (clock_count wE)) (mats wE) (vecs wE)).
Proof.
  intros Hn Hinfo. unfold fortran_phase, try_catch.
  unfold bind at 1. cbn [now].
  match goal with |- context [bind (eigen_decomposition ?a ?b ?c) _ ?wn] =>
    pose proof (eigen_decomposition_outcome a b c wn Hn) as Ho;
    pose proof (eigen_decomposition_streams a b c wn) as (Hco & Hce & Hof);
    change (reported_info a b c wn) with (reported_info a b c w) in Ho;
    change wn with (snd (now w)) in *;
    unfold bind at 1;
    destruct (eigen_decomposition a b c (snd (now w))) as [o wE]
  end.
  cbn [fst snd] in *. rewrite Hinfo in Ho. cbn in Ho. subst o.
  eexists _, wE. split; [reflexivity|].
  unfold bind at 1. cbn [now]. unfold bind at 1. cbn [cout_put].
  unfold bind at 1. cbn [outfile_put ret]. 
  cbn [cin cin_fail cout cerr outfile rand_count clock_count mats vecs].
  rewrite Hco, Hce, Hof. reflexivity.
Qed.

Lemma max_abs_diff_defined (a b : list double) :
  a <> [] -> b <> [] ->
  exists m, maxCoeff (cwiseAbs (zip_with PrimFloat.sub a b)) = Some m.
Proof.
  destruct a as [|x a], b as [|y b]; intros Ha Hb; try congruence.
  eexists. reflexivity.
Qed.

Lemma max_diff_values_defined (a b : Vector) :
  length a = length b -> a <> [] ->
  exists m, max_diff_values a b = Some m.
Proof.
  intros Hl Ha. unfold max_diff_values, vector_sub.
  rewrite (proj2 (Nat.eqb_eq _ _) Hl). apply max_abs_diff_defined; [assumption|].
  intros E. rewrite E in Hl. destruct a; [congruence|discriminate].
Qed.

Lemma max_diff_vectors_defined (A B : Matrix) :
  rows A = rows B -> cols A = cols B -> coeffs A <> [] -> coeffs B <> [] ->
  exists m, max_diff_vectors A B = Some m.
Proof.
  intros Hr Hc HA HB. unfold max_diff_vectors, matrix_sub, same_shape.
  rewrite (proj2 (Nat.eqb_eq _ _) Hr), (proj2 (Nat.eqb_eq _ _) Hc).
  cbn [andb difference coeffs]. apply max_abs_diff_defined; assumption.
Qed.

(** the state in which the comparison starts the native backend *)
Lemma declared_state (size : Z) (w : world) :
  vecs (snd (declare_results size w)) obj_W_fortran = unwritten (Z.to_nat size)
  /\ mats (snd (declare_results size w)) obj_V_fortran
     = mkMatrix (Z.to_nat size) (Z.to_nat size)
         (unwritten (Z.to_nat size * Z.to_nat size)).
Proof. split; reflexivity. Qed.

(** the objects after the native backend has run on a [size] x [size]
    matrix *)
Lemma native_outputs_sized (size : Z) (w : world) :
  0 <= size <= INT_MAX -> sized size w ->
  let wE := snd (eigen_decomposition obj_A obj_W_fortran obj_V_fortran
                   (snd (now (snd (declare_results size w))))) in
  mats wE obj_A = mats w obj_A
  /\ length (vecs wE obj_W_fortran) = Z.to_nat size
  /\ rows (mats wE obj_V_fortran) = Z.to_nat size
  /\ cols (mats wE obj_V_fortran) = Z.to_nat size
  /\ wf_matrix (mats wE obj_V_fortran).
Proof.
  intros Hsz [Hr Hc] wE.
  set (wn := snd (now (snd (declare_results size w)))).
  assert (HA : mats wn obj_A = mats w obj_A) by reflexivity.
  assert (Hn : Z.of_nat (rows (mats wn obj_A)) <= INT_MAX)
    by (rewrite HA, Hr, Z2Nat.id; lia).
  assert (Hwf : wf_matrix (mats wn obj_V_fortran)).
  { unfold wf_matrix. cbn. rewrite unwritten_length. reflexivity. }
  destruct (eigen_decomposition_sizes obj_A obj_W_fortran obj_V_fortran wn Hn Hwf)
    as (H1 & H2 & H3 & H4).
  rewrite HA, Hr in H1, H2, H3.
  split; [|repeat split; assumption].
  unfold wE. rewrite eigen_decomposition_frame by discriminate. exact HA.
Qed.

(** the line both streams receive when the library backend has returned *)
Lemma eigen_phase_success (flag : bool) (w : world)
    (values vectors : list complex) :
  rows (mats w obj_A) = cols (mats w obj_A) ->
  EigenSolver (mats w obj_A) = inr (values, vectors) ->
  exists d,
    eigen_phase flag w
    = (Val d,
       mkWorld (cin w) (cin_fail w)
         (cout w ++ eigen_duration_line flag d) (cerr w)
         (outfile w ++ eigen_duration_line flag d)
         (rand_count w) (S (S (clock_count w)))
         (upd (mats w) obj_V_eigen
              (mkMatrix (rows (mats w obj_A)) (cols (mats w obj_A))
                        (map real vectors)))
         (upd (vecs w) obj_W_eigen (map real values))).
Proof.
  intros Hsq Hs.
  unfold eigen_phase, eigen_with_lapack, eigen_without_lapack, try_catch,
    eigen_duration_line.
  destruct flag;
    (unfold bind at 1; cbn [now]; unfold bind at 1; cbn [get_mat mats];
     unfold bind at 1; unfold construct_solver;
     rewrite (proj2 (Nat.eqb_eq _ _) Hsq); cbn [mats]; rewrite Hs;
     cbn [ret fst snd]; eexists; reflexivity).
Qed.

(** X11.  When the matrix has been chosen with a positive size, the Fortran
    subroutine reports the status 0 and the solver of the library returns
    [size] eigenvalues and some eigenvectors, the process exits with code 0,
    nothing is written to the error stream, and standard output and the
    results file both end with the same summary block. *)
Theorem successful_run_exits_zero (fuel : nat) (argv0 arg : string)
    (w w1 : world) (flag : bool) (size : Z)
    (values vectors : list complex) :
  setup fuel arg w = (Val (flag, size), w1) ->
  0 < size ->
  reported_info obj_A obj_W_fortran obj_V_fortran
    (snd (declare_results size w1)) = 0 ->
  EigenSolver (mats w1 obj_A) = inr (values, vectors) ->
  length values = Z.to_nat size ->
  vectors <> [] ->
  fst (run fuel [argv0; arg] w) = Exited 0
  /\ cerr (snd (run fuel [argv0; arg] w)) = cerr w
  /\ exists d_f d_e m_values m_vectors r_f r_e before_c before_f,
       cout (snd (run fuel [argv0; arg] w))
       = before_c ++ summary flag size d_f d_e m_values m_vectors r_f r_e
       /\ outfile (snd (run fuel [argv0; arg] w))
          = before_f ++ summary flag size d_f d_e m_values m_vectors r_f r_e.
Proof.
  intros Hsetup Hpos Hinfo Hsolver Hlen Hvec.
  destruct (setup_frame fuel arg w w1 flag size Hsetup)
    as (Hce & _ & _ & Hsized & Hsz).
  destruct (declare_results_eq size w1) as (Ed & Dco & Dce & Dof & DA).
  destruct (native_outputs_sized size w1 Hsz Hsized) as (NA & NW & Nr & Nc & Nwf).
  destruct Hsized as [Hrows Hcols].
  destruct (fortran_phase_success (snd (declare_results size w1)))
    as (d_f & wE & EwE & Ef).
  { rewrite DA, Hrows, int_of_Index_small; rewrite Z2Nat.id; lia. }
  { assumption. }
  rewrite <- EwE in NA, NW, Nr, Nc, Nwf. clear EwE.
  assert (Hn : (0 < Z.to_nat size)%nat) by lia.
  destruct (max_diff_values_defined (vecs wE obj_W_fortran) (map real values))
    as (m_values & Emv).
  { rewrite length_map. congruence. }
  { intros E. rewrite E in NW. cbn in NW. lia. }
  destruct (max_diff_vectors_defined (mats wE obj_V_fortran)
              (mkMatrix (rows (mats wE obj_A)) (cols (mats wE obj_A))
                        (map real vectors)))
    as (m_vectors & EmV).
  { cbn [rows]. congruence. }
  { cbn [cols]. congruence. }
  { intros E. unfold wf_matrix in Nwf. rewrite E, Nr, Nc in Nwf.
    cbn in Nwf. nia. }
  { cbn [coeffs]. destruct vectors; [congruence|discriminate]. }
  assert (Emain : exists d_e r_f r_e wfin,
            main fuel [argv0; arg] w = (Return 0, wfin)
            /\ cerr wfin = cerr w
            /\ (exists b, cout wfin
                  = b ++ summary flag size d_f d_e m_values m_vectors r_f r_e)
            /\ (exists b, outfile wfin
                  = b ++ summary flag size d_f d_e m_values m_vectors r_f r_e)).
  { unfold main. cbn [length Nat.eqb negb nth].
    rewrite (bind_Val _ _ _ _ _ Hsetup). cbn [fst snd].
    unfold compare. rewrite (bind_Val _ _ _ _ _ Ed), (bind_Val _ _ _ _ _ Ef).
    unfold bind at 1. cbn [get_mat mats]. unfold bind at 1. cbn [get_vec vecs].
    unfold bind at 1. cbn [get_mat mats].
    rewrite (bind_Val _ _ _ _ _
               (check_decomposition_eq (mats wE obj_A) (vecs wE obj_W_fortran)
                  (mats wE obj_V_fortran) "Fortran LAPACK" _
                  ltac:(congruence) ltac:(congruence) ltac:(congruence)
                  ltac:(congruence))).
    world_simpl.
    match goal with |- context [bind (eigen_phase flag) _ ?w0] =>
      destruct (eigen_phase_success flag w0 values vectors) as (d_e & Ee)
    end.
    { cbn [mats]. congruence. }
    { cbn [mats]. rewrite NA. assumption. }
    rewrite (bind_Val _ _ _ _ _ Ee). clear Ee. world_simpl.
    unfold bind at 1. cbn [get_mat mats]. unfold bind at 1. cbn [get_vec vecs].
    unfold bind at 1. cbn [get_mat mats].
    rewrite !upd_same, !upd_other by discriminate.
    rewrite (bind_Val _ _ _ _ _
               (check_decomposition_eq (mats wE obj_A) (map real values)
                  (mkMatrix (rows (mats wE obj_A)) (cols (mats wE obj_A))
                            (map real vectors)) "Eigen Library" _
                  ltac:(cbn [rows cols]; congruence)
                  ltac:(cbn [cols]; rewrite length_map; congruence)
                  eq_refl eq_refl)).
    world_simpl.
    unfold bind at 1. cbn [get_vec vecs]. unfold bind at 1. cbn [get_vec vecs].
    unfold bind at 1. cbn [get_mat mats]. unfold bind at 1. cbn [get_mat mats].
    rewrite !upd_same, !upd_other by discriminate.
    rewrite Emv, EmV. cbn [eigen_assert].
    unfold bind at 1. cbn [ret]. unfold bind at 1. cbn [ret].
    unfold bind at 1. cbn [cout_put]. unfold bind at 1. cbn [outfile_put].
    cbn [return_].
    eexists d_e, _, _, _. split; [reflexivity|]. world_simpl.
    split; [congruence|]. split; eexists; reflexivity. }
  destruct Emain as (d_e & r_f & r_e & wfin & Em & Hcerr & (bc & Hc) & (bf & Hf)).
  rewrite run_world. unfold run. rewrite Em. cbn [fst snd].
  split; [reflexivity|]. split; [assumption|].
  exists d_f, d_e, m_values, m_vectors, r_f, r_e, bc, bf. split; assumption.
Qed.

End Completion.

Lemma successful_run_exits_zero_witness :
  fst (@run (Reference.external [2; 0; 0; 3]%float 0) 0
         ["prog"; "0"]%string (Reference.start "2")) = Exited 0.
Proof.
  refine (proj1 (@successful_run_exits_zero
                   (Reference.external [2; 0; 0; 3]%float 0) 0 "prog" "0"
                   (Reference.start "2")
                   (snd (@setup (Reference.external [2; 0; 0; 3]%float 0) 0 "0"
                           (Reference.start "2")))
                   false 2
                   [(2, 0); (3, 0)]%float
                   [(1, 0); (0, 0); (0, 0); (1, 0)]%float
                   _ _ _ _ _ _)).
  - reflexivity.
  - lia.
  - reflexivity.
  - reflexivity.
  - reflexivity.
  - discriminate.
Defined.

(** ** Arguments, sizes and a failing library backend *)

Section CommandLineMore.

Context `{ext : External}.

(** X12.  An argument whose digits denote an integer outside the range of
    [int] makes [std::stoi] throw [std::out_of_range] at line 99; nothing
    catches it, so the process is terminated before the results file is
    opened and before anything is written. *)
Theorem out_of_range_argument_terminates (fuel : nat) (argv0 arg : string)
    (w : world) (v : Z) (rest : string) :
  parse_integer arg = Some (v, rest) ->
  v < INT_MIN \/ INT_MAX < v ->
  run fuel [argv0; arg] w = (Terminated (out_of_range "stoi"), w).
Proof.
  intros Hp Hv. unfold run, main. cbn [length Nat.eqb negb nth].
  unfold setup, bind, stoi. rewrite Hp.
  destruct (Z.ltb_spec v INT_MIN), (Z.ltb_spec INT_MAX v);
    try reflexivity. lia.
Qed.

(** X13.  An argument that starts with an integer in the range of [int]
    is accepted whatever follows the digits, and only whether that integer
    is zero matters: the run is the run with the argument [0] or [1]. *)
Theorem accepted_argument_is_zero_or_one (fuel : nat) (argv0 arg : string)
    (w : world) (v : Z) (rest : string) :
  parse_integer arg = Some (v, rest) ->
  INT_MIN <= v <= INT_MAX ->
  run fuel [argv0; arg] w
  = run fuel [argv0; if v =? 0 then "0"%string else "1"%string] w.
Proof.
  intros Hp Hv.
  assert (E : stoi arg w = (Val v, w)).
  { unfold stoi. rewrite Hp.
    destruct (Z.ltb_spec v INT_MIN), (Z.ltb_spec INT_MAX v);
      try reflexivity; lia. }
  assert (Es : setup fuel arg w
               = setup fuel (if v =? 0 then "0"%string else "1"%string) w).
  { unfold setup. rewrite (bind_Val _ _ _ _ _ E).
    destruct (Z.eqb_spec v 0) as [->|Hne].
    - reflexivity.
    - assert (E1 : stoi "1" w = (Val 1, w)) by reflexivity.
      rewrite (bind_Val _ _ _ _ _ E1).
      destruct (Z.eqb_spec v 0) as [|_]; [contradiction|]. reflexivity. }
  unfold run, main. cbn [length Nat.eqb negb nth]. unfold bind.
  rewrite Es. reflexivity.
Qed.

(** the first matrix when the size is 0: the vector of singular values is
    empty and its coefficient 0 is read *)
Lemma generate_empty (fuel : nat) (w : world) :
  singularValues (mkMatrix 0 0 []) = [] ->
  exists w', generate fuel 0 w = (Undef, w')
    /\ cout w' = cout w /\ cerr w' = cerr w /\ outfile w' = outfile w.
Proof.
  intros Hsv. unfold generate. unfold bind at 1.
  cbn [Random Z.ltb Z.compare orb Z.to_nat Nat.mul seq map].
  unfold bind at 1. cbn [set_mat]. unfold bind at 1.
  unfold compute_condition_number.
  rewrite Hsv. cbn [eigen_assert undef].
  eexists. split; [reflexivity|]. repeat split.
Qed.

(** the first matrix when the size is negative: [Random] is called with
    negative dimensions *)
Lemma generate_negative (fuel : nat) (size : Z) (w : world) :
  size < 0 -> generate fuel size w = (Undef, w).
Proof.
  intros Hz. unfold generate, bind, Random.
  destruct (Z.ltb_spec size 0); [reflexivity|lia].
Qed.

(** X14.  The size read at line 104 is not checked.  When standard input
    holds no size, a field that is no integer, zero or a negative integer,
    the run has printed the question for the size and emptied the results
    file, and then fails an assertion of Eigen (negative dimensions, or
    coefficient 0 of an empty vector of singular values) or uses an
    indeterminate size: no message on the error stream, no exit code. *)
Theorem unusable_size_is_not_rejected (fuel : nat) (argv0 arg : string)
    (w : world) (v : Z) :
  fst (stoi arg w) = Val v ->
  cin_fail w = false ->
  match parse_integer (skipws (cin w)) with
  | Some (size, _) => size <= 0
  | None => True
  end ->
  singularValues (mkMatrix 0 0 []) = [] ->
  fst (run fuel [argv0; arg] w) = Undefined
  /\ cout (snd (run fuel [argv0; arg] w))
     = cout w ++ [Str "Enter the size of the matrix: "]
  /\ cerr (snd (run fuel [argv0; arg] w)) = cerr w
  /\ outfile (snd (run fuel [argv0; arg] w)) = [].
Proof.
  intros Hs Hf Hsize Hsv.
  assert (E : stoi arg w = (Val v, w)).
  { destruct (stoi arg w) as [o w0] eqn:E0. cbn in Hs. subst o.
    rewrite (stoi_Val_inv _ _ _ _ E0). reflexivity. }
  assert (Es : exists w', setup fuel arg w = (Undef, w')
             /\ cout w' = cout w ++ [Str "Enter the size of the matrix: "]
             /\ cerr w' = cerr w /\ outfile w' = []).
  { unfold setup. rewrite (bind_Val _ _ _ _ _ E).
    unfold bind at 1. cbn [outfile_open]. unfold bind at 1. cbn [cout_put].
    unfold bind at 1. unfold cin_int at 1. world_simpl. rewrite Hf.
    destruct (skipws (cin w)) as [|c s] eqn:Ew.
    { eexists. split; [reflexivity|]. repeat split. }
    destruct (parse_integer (String c s)) as [[size rest]|] eqn:Ep.
    - destruct (Z.ltb_spec size INT_MIN).
      { unfold bind. rewrite generate_negative by reflexivity.
        eexists. split; [reflexivity|]. repeat split. }
      destruct (Z.ltb_spec INT_MAX size); [unfold INT_MAX in *; lia|].
      destruct (Z.eq_dec size 0) as [->|Hne].
      + unfold bind.
        match goal with |- context [generate fuel 0 ?w0] =>
          destruct (generate_empty fuel w0 Hsv) as (w0' & Ez & Hco & Hce & Hof)
        end.
        rewrite Ez. eexists. split; [reflexivity|].
        rewrite Hco, Hce, Hof. repeat split.
      + unfold bind. rewrite generate_negative by lia.
        eexists. split; [reflexivity|]. repeat split.
    - unfold bind.
      match goal with |- context [generate fuel 0 ?w0] =>
        destruct (generate_empty fuel w0 Hsv) as (w0' & Ez & Hco & Hce & Hof)
      end.
      rewrite Ez. eexists. split; [reflexivity|].
      rewrite Hco, Hce, Hof. repeat split. }
  destruct Es as (w' & Es & Hco & Hce & Hof).
  unfold run, main. cbn [length Nat.eqb negb nth]. unfold bind.
  rewrite Es. cbn [fst snd]. repeat split; assumption.
Qed.

(** lines 169-214 when the constructor of the solver throws *)
Lemma eigen_phase_failure (flag : bool) (w : world) (e : exn) :
  rows (mats w obj_A) = cols (mats w obj_A) ->
  EigenSolver (mats w obj_A) = inl e ->
  eigen_phase flag w
  = (Return 1,
     mkWorld (cin w) (cin_fail w) (cout w) (cerr w ++ library_error_line e)
       (outfile w) (rand_count w) (S (clock_count w)) (mats w) (vecs w)).
Proof.
  intros Hsq Hs.
  unfold eigen_phase, eigen_with_lapack, eigen_without_lapack, try_catch,
    library_error_line.
  destruct flag;
    (unfold bind at 1; cbn [now]; unfold bind at 1; cbn [get_mat mats];
     unfold bind at 1; unfold construct_solver;
     rewrite (proj2 (Nat.eqb_eq _ _) Hsq); cbn [mats]; rewrite Hs;
     cbn [throw]; unfold bind; cbn [cerr_put return_]; reflexivity).
Qed.

(** X15.  When the Fortran backend has succeeded and the constructor of
    the solver of the library throws, the process exits with code 1 and the
    error stream receives one line with the message of the exception;
    standard output and the results file end with the duration and the
    reconstruction error of the Fortran backend: no line of the library
    backend, no maximum difference, no summary. *)
Theorem library_failure_ends_run (fuel : nat) (argv0 arg : string)
    (w w1 : world) (flag : bool) (size : Z) (e : exn) :
  setup fuel arg w = (Val (flag, size), w1) ->
  reported_info obj_A obj_W_fortran obj_V_fortran
    (snd (declare_results size w1)) = 0 ->
  EigenSolver (mats w1 obj_A) = inl e ->
  fst (run fuel [argv0; arg] w) = Exited 1
  /\ cerr (snd (run fuel [argv0; arg] w)) = cerr w ++ library_error_line e
  /\ exists d_f r_f before_c before_f,
       cout (snd (run fuel [argv0; arg] w))
       = cout w ++ before_c ++ fortran_duration_line d_f
                ++ error_line "Fortran LAPACK" r_f
       /\ outfile (snd (run fuel [argv0; arg] w))
          = before_f ++ fortran_duration_line d_f
                     ++ error_line "Fortran LAPACK" r_f
       /\ Forall generation_item before_c
       /\ Forall generation_item before_f.
Proof.
  intros Hsetup Hinfo Hsolver.
  destruct (setup_frame fuel arg w w1 flag size Hsetup)
    as (Hce & (lc & Hco & Hlc) & Hof & Hsized & Hsz).
  destruct (declare_results_eq size w1) as (Ed & Dco & Dce & Dof & DA).
  destruct (native_outputs_sized size w1 Hsz Hsized) as (NA & NW & Nr & Nc & Nwf).
  destruct Hsized as [Hrows Hcols].
  destruct (fortran_phase_success (snd (declare_results size w1)))
    as (d_f & wE & EwE & Ef).
  { rewrite DA, Hrows, int_of_Index_small; rewrite Z2Nat.id; lia. }
  { assumption. }
  rewrite <- EwE in NA, NW, Nr, Nc, Nwf. clear EwE.
  assert (Emain : exists r_f wfin,
            main fuel [argv0; arg] w = (Return 1, wfin)
            /\ cerr wfin = cerr w ++ library_error_line e
            /\ cout wfin = cout w1 ++ fortran_duration_line d_f
                             ++ error_line "Fortran LAPACK" r_f
            /\ outfile wfin = outfile w1 ++ fortran_duration_line d_f
                             ++ error_line "Fortran LAPACK" r_f).
  { unfold main. cbn [length Nat.eqb negb nth].
    rewrite (bind_Val _ _ _ _ _ Hsetup). cbn [fst snd].
    unfold compare. rewrite (bind_Val _ _ _ _ _ Ed), (bind_Val _ _ _ _ _ Ef).
    unfold bind at 1. cbn [get_mat mats]. unfold bind at 1. cbn [get_vec vecs].
    unfold bind at 1. cbn [get_mat mats].
    rewrite (bind_Val _ _ _ _ _
               (check_decomposition_eq (mats wE obj_A) (vecs wE obj_W_fortran)
                  (mats wE obj_V_fortran) "Fortran LAPACK" _
                  ltac:(congruence) ltac:(congruence) ltac:(congruence)
                  ltac:(congruence))).
    world_simpl. unfold bind at 1.
    rewrite eigen_phase_failure with (e := e);
      [|cbn [mats]; congruence|cbn [mats]; rewrite NA; assumption].
    eexists _, _. split; [reflexivity|]. world_simpl.
    rewrite Dco, Dce, Dof, <- !app_assoc.
    split; [congruence|]. split; reflexivity. }
  destruct Emain as (r_f & wfin & Em & Hcerr & Hc & Hf).
  rewrite run_world. unfold run. rewrite Em. cbn [fst snd].
  split; [reflexivity|]. split; [assumption|].
  exists d_f, r_f, lc, (outfile w1). rewrite Hc, Hf, Hco, <- !app_assoc.
  repeat split; assumption.
Qed.

End CommandLineMore.

Lemma out_of_range_argument_terminates_witness :
  @run (Reference.external [] 0) 0 ["prog"; "4294967296"]%string
    (Reference.start "2")
  = (Terminated (out_of_range "stoi"), Reference.start "2").
Proof.
  apply (@out_of_range_argument_terminates (Reference.external [] 0) 0
           "prog" "4294967296" (Reference.start "2") 4294967296 "").
  - reflexivity.
  - right. reflexivity.
Defined.

Lemma accepted_argument_is_zero_or_one_witness :
  @run (Reference.external [2; 0; 0; 3]%float 0) 0 ["prog"; "7up"]%string
    (Reference.start "2")
  = @run (Reference.external [2; 0; 0; 3]%float 0) 0 ["prog"; "1"]%string
      (Reference.start "2").
Proof.
  apply (@accepted_argument_is_zero_or_one
           (Reference.external [2; 0; 0; 3]%float 0) 0 "prog" "7up"
           (Reference.start "2") 7 "up").
  - reflexivity.
  - unfold INT_MIN, INT_MAX. lia.
Defined.

Lemma unusable_size_is_not_rejected_witness :
  fst (@run (Reference.external [] 0) 0 ["prog"; "0"]%string
         (Reference.start "abc")) = Undefined.
Proof.
  apply (@unusable_size_is_not_rejected (Reference.external [] 0) 0
           "prog" "0" (Reference.start "abc") 0).
  - reflexivity.
  - reflexivity.
  - exact I.
  - reflexivity.
Defined.

Lemma library_failure_ends_run_witness :
  fst (@run (failing_solver [2; 0; 0; 3]%float (runtime_error "no memory")) 0
         ["prog"; "1"]%string (Reference.start "2")) = Exited 1.
Proof.
  refine (proj1 (@library_failure_ends_run
                   (failing_solver [2; 0; 0; 3]%float (runtime_error "no memory"))
                   0 "prog" "1" (Reference.start "2")
                   (snd (@setup (failing_solver [2; 0; 0; 3]%float
                                   (runtime_error "no memory")) 0 "1"
                           (Reference.start "2")))
                   true 2 (runtime_error "no memory") _ _ _)).
  - reflexivity.
  - reflexivity.
  - reflexivity.
Defined.

Lemma wrong_argument_count_witness :
  fst (@run (Reference.external [] 0) 0 ["prog"; "0"; "1"]%string
         (Reference.start "2")) = Exited 1.
Proof.
  rewrite (@wrong_argument_count (Reference.external [] 0) 0 "prog"
             ["0"; "1"]%string (Reference.start "2")).
  - reflexivity.
  - cbn. lia.
Defined.
